(** * table_processor: table reconstruction and batch merge

    A shallow embedding of [table_processor.py].  The Python functions
    [preprocess_image], [process_table_data], [process_single_image] and the
    recognition loop of [main] are translated into Rocq functions; Python
    exceptions become the error monad [res], calls to [st.error] and
    [st.success] become a log of [st_call]s, and the pandas frame is a
    record of row labels, column labels and a row-major matrix of values. *)

From Stdlib Require Import ZArith Lia.
From stdpp Require Import base numbers sets strings option list.

#[global] Set Warnings "-clear-no-such-hyp".

(** ** Python values, exceptions and the error monad *)

(** A value stored in the grid or in a frame: a string, [None] (a JSON
    null) or the float NaN that pandas uses for a missing entry. *)
Inductive pyval :=
  | PStr (s : string)
  | PNone
  | PNaN.

#[global] Instance pyval_eq_dec : EqDecision pyval.
Proof. solve_decision. Defined.

Inductive exn :=
  | KeyError (key : string)
  | IndexError
  | ValueError
  | InvalidIndexError
  | ExternalError (what : string).

#[global] Instance exn_eq_dec : EqDecision exn.
Proof. solve_decision. Defined.

Inductive res (A : Type) :=
  | Ok (a : A)
  | Raised (e : exn).
Arguments Ok {A} a.
Arguments Raised {A} e.

#[global] Instance res_ret : MRet res := @Ok.
#[global] Instance res_bind : MBind res := λ A B f m,
  match m with
  | Ok a => f a
  | Raised e => Raised e
  end.

(** [d[key]] on a dict whose entry for [key] is [field]. *)
Definition dict_getitem {A} (key : string) (field : option A) : res A :=
  match field with
  | Some v => Ok v
  | None => Raised (KeyError key)
  end.

(** [range(a, b)]. *)
Definition py_range (a b : Z) : list Z := seqZ a (b - a).

(** Evaluation of a generator expression [f(x) for x in xs], left to right,
    stopping at the first exception. *)
Fixpoint gen_eval {A B} (f : A → res B) (xs : list A) : res (list B) :=
  match xs with
  | [] => Ok []
  | x :: xs' => y ← f x; ys ← gen_eval f xs'; Ok (y :: ys)
  end.

(** [max(iterable)]. *)
Definition py_max (xs : list Z) : res Z :=
  match xs with
  | [] => Raised ValueError
  | x :: xs' => Ok (foldl Z.max x xs')
  end.

(** A [for] loop threading the mutated state through its iterations. *)
Fixpoint for_each {A S} (body : S → A → res S) (xs : list A) (s : S) : res S :=
  match xs with
  | [] => Ok s
  | x :: xs' => s' ← body s x; for_each body xs' s'
  end.

(** Python list indexing: [-len <= i < 0] counts from the end, anything
    outside [-len, len) raises [IndexError]. *)
Definition py_index (len : nat) (i : Z) : res nat :=
  if decide (0 ≤ i < Z.of_nat len)%Z then Ok (Z.to_nat i)
  else if decide (- Z.of_nat len ≤ i < 0)%Z then Ok (Z.to_nat (Z.of_nat len + i))
  else Raised IndexError.

(** ** The recognition response *)

(** A cell of the response. Each field is the integer (for [Text], the
    value) found under its key, or [None] when the key is absent; values of
    another JSON type under the four integer keys are outside this model. *)
Record Cell := {
  RowTl : option Z;
  ColTl : option Z;
  RowSpan : option Z;
  ColSpan : option Z;
  Text : option pyval
}.

Record TableDetection := { Cells : option (list Cell) }.

Record OcrData := { TableDetections : option (list TableDetection) }.

(** ** The grid *)

Abbreviation Grid := (list (list pyval)).

(** [[["" for _ in range(max_col)] for _ in range(max_row)]] *)
Definition new_grid (max_row max_col : Z) : Grid :=
  replicate (Z.to_nat max_row) (replicate (Z.to_nat max_col) (PStr "")).

(** [grid[r][c] = text] *)
Definition grid_setitem (grid : Grid) (r c : Z) (text : pyval) : res Grid :=
  ri ← py_index (length grid) r;
  match grid !! ri with
  | None => Raised IndexError
  | Some row =>
      ci ← py_index (length row) c;
      Ok (<[ri := <[ci := text]> row]> grid)
  end.

Definition row_start (cell : Cell) : Z := default 0%Z (RowTl cell).
Definition col_start (cell : Cell) : Z := default 0%Z (ColTl cell).
Definition row_span (cell : Cell) : Z := default 1%Z (RowSpan cell).
Definition col_span (cell : Cell) : Z := default 1%Z (ColSpan cell).
Definition text (cell : Cell) : pyval := default (PStr "") (Text cell).

(** The rows and columns visited by the two nested [for] loops of one cell. *)
Definition row_range (max_row : Z) (cell : Cell) : list Z :=
  py_range (row_start cell) (Z.min (row_start cell + row_span cell) max_row).
Definition col_range (max_col : Z) (cell : Cell) : list Z :=
  py_range (col_start cell) (Z.min (col_start cell + col_span cell) max_col).

Definition fill_cell (max_row max_col : Z) (grid : Grid) (cell : Cell) : res Grid :=
  for_each (λ g r,
    for_each (λ g' c, grid_setitem g' r c (text cell)) (col_range max_col cell) g)
    (row_range max_row cell) grid.

Definition fill_grid (max_row max_col : Z) (cells : list Cell) (grid : Grid) : res Grid :=
  for_each (fill_cell max_row max_col) cells grid.

(** [cell["RowTl"] + cell.get("RowSpan", 1)] and its column counterpart. *)
Definition row_extent (cell : Cell) : res Z :=
  r ← dict_getitem "RowTl" (RowTl cell); Ok (r + row_span cell)%Z.
Definition col_extent (cell : Cell) : res Z :=
  c ← dict_getitem "ColTl" (ColTl cell); Ok (c + col_span cell)%Z.

(** ** The pandas frame *)

Inductive label :=
  | LInt (i : Z)
  | LStr (s : string).

#[global] Instance label_eq_dec : EqDecision label.
Proof. solve_decision. Defined.

Record DataFrame := {
  index : list Z;
  columns : list label;
  data : list (list pyval)
}.

#[global] Instance DataFrame_eq_dec : EqDecision DataFrame.
Proof. solve_decision. Defined.

Definition range_index (n : nat) : list Z := seqZ 0 (Z.of_nat n).

(** [pd.DataFrame(grid)] for a list of equally long rows. *)
Definition pd_DataFrame (grid : Grid) : DataFrame :=
  {| index := range_index (length grid);
     columns := LInt <$> range_index (length (default [] (head grid)));
     data := grid |}.

Definition notna (v : pyval) : bool :=
  match v with
  | PStr _ => true
  | PNone | PNaN => false
  end.

(** Selection with a boolean mask, [obj.loc[mask]]. *)
Fixpoint select {A} (mask : list bool) (xs : list A) : list A :=
  match mask, xs with
  | b :: mask', x :: xs' => if b then x :: select mask' xs' else select mask' xs'
  | _, _ => []
  end.

(** [notna(df).any(axis=1)]: one flag per row. *)
Definition any_axis1 (rows : list (list pyval)) : list bool :=
  (λ row, existsb notna row) <$> rows.

(** [notna(df).any(axis=0)]: one flag per column. *)
Definition any_axis0 (ncols : nat) (rows : list (list pyval)) : list bool :=
  foldr (λ row acc, zip_with orb (notna <$> row) acc) (replicate ncols false) rows.

(** [df.dropna(how='all')] *)
Definition dropna_rows (df : DataFrame) : DataFrame :=
  let mask := any_axis1 (data df) in
  {| index := select mask (index df);
     columns := columns df;
     data := select mask (data df) |}.

(** [df.dropna(axis=1, how='all')] *)
Definition dropna_cols (df : DataFrame) : DataFrame :=
  let mask := any_axis0 (length (columns df)) (data df) in
  {| index := index df;
     columns := select mask (columns df);
     data := select mask <$> data df |}.

(** [df.reset_index(drop=True)] *)
Definition reset_index (df : DataFrame) : DataFrame :=
  {| index := range_index (length (index df));
     columns := columns df;
     data := data df |}.

(** The post-processing of the enhanced mode (lines 99-100). *)
Definition enhanced_cleanup (df : DataFrame) : DataFrame :=
  reset_index (dropna_cols (dropna_rows df)).

(** ** process_table_data *)

Inductive st_call :=
  | StErrorPreprocess (e : exn)
  | StErrorTable (e : exn)
  | StErrorImage (e : exn)
  | StErrorFile (name : string) (e : exn)
  | StSuccess (name : string) (rows : nat)
  | StErrorMerge (e : exn)
  | StErrorNoData.

(** Lines 74-91: the size of the grid, its allocation and the fill loop. *)
Definition build_grid (cells : list Cell) : res Grid :=
  row_ends ← gen_eval row_extent cells;
  max_row ← py_max row_ends;
  col_ends ← gen_eval col_extent cells;
  max_col ← py_max col_ends;
  fill_grid max_row max_col cells (new_grid max_row max_col).

(** One iteration of [for table in ocr_data["TableDetections"]]: [None]
    stands for [continue], [Some df] for [tables.append(df)]. *)
Definition process_detection (processing_mode : string) (table : TableDetection)
    : res (option DataFrame) :=
  match Cells table with
  | None | Some [] => Ok None
  | Some cells =>
      grid ← build_grid cells;
      let df := pd_DataFrame grid in
      let df := if bool_decide (processing_mode = "enhanced")
                then enhanced_cleanup df else df in
      Ok (Some df)
  end.

Fixpoint collect_tables (processing_mode : string) (detections : list TableDetection)
    (tables : list DataFrame) : res (list DataFrame) :=
  match detections with
  | [] => Ok tables
  | table :: rest =>
      r ← process_detection processing_mode table;
      collect_tables processing_mode rest (tables ++ option_list r)
  end.

(** The body of the [try] block. *)
Definition process_table_data_try (ocr_data : OcrData) (processing_mode : string)
    : res (option DataFrame) :=
  match TableDetections ocr_data with
  | None | Some [] => Ok None
  | Some detections =>
      tables ← collect_tables processing_mode detections [];
      Ok (head tables)
  end.

(** The function with its [except] handler: the returned value together
    with the [st.error] call it made, if any. *)
Definition process_table_data_run (ocr_data : OcrData) (processing_mode : string)
    : option DataFrame * list st_call :=
  match process_table_data_try ocr_data processing_mode with
  | Ok r => (r, [])
  | Raised e => (None, [StErrorTable e])
  end.

Definition process_table_data (ocr_data : OcrData) (processing_mode : string)
    : option DataFrame :=
  fst (process_table_data_run ocr_data processing_mode).

(** ** The batch: lines 174-217 of [main] *)

(** What the stages in front of [process_table_data] made of a file:
    [Image.open] raised; or the image was opened and [preprocess_image]
    ran, showing the exception [pre] it caught, if it caught one, after
    which either a later step of [process_single_image] raised before the
    response was parsed, or the service answered. *)
Inductive file_content :=
  | Undecodable (e : exn)
  | Unrecognized (pre : option exn) (e : exn)
  | Recognized (pre : option exn) (ocr_data : OcrData).

(** The [st.error] of line 58, when [preprocess_image] caught [pre]. *)
Definition preprocess_shown (pre : option exn) : list st_call :=
  match pre with
  | Some e => [StErrorPreprocess e]
  | None => []
  end.

Record UploadedFile := { name : string; content : file_content }.

Definition source_column : label := LStr "_来源文件".

Definition label_position (lbl : label) (cols : list label) : option nat :=
  fst <$> list_find (λ l, l = lbl) cols.

(** [df[lbl] = value] with a scalar [value]. *)
Definition set_column (df : DataFrame) (lbl : label) (value : pyval) : DataFrame :=
  match label_position lbl (columns df) with
  | Some j =>
      {| index := index df; columns := columns df;
         data := (λ row, <[j := value]> row) <$> data df |}
  | None =>
      {| index := index df; columns := columns df ++ [lbl];
         data := (λ row, row ++ [value]) <$> data df |}
  end.

(** The labels of several indexes in the order of their first appearance. *)
Fixpoint unique_labels (seen : list label) (ls : list label) : list label :=
  match ls with
  | [] => []
  | l :: ls' =>
      if decide (l ∈ seen) then unique_labels seen ls'
      else l :: unique_labels (l :: seen) ls'
  end.

Definition union_columns (dfs : list DataFrame) : list label :=
  unique_labels [] (concat (columns <$> dfs)).

(** A row of a frame with columns [old_cols] laid out along [new_cols]. *)
Definition reindex_row (old_cols new_cols : list label) (row : list pyval) : list pyval :=
  (λ lbl, match label_position lbl old_cols with
          | Some j => default PNaN (row !! j)
          | None => PNaN
          end) <$> new_cols.

(** [pd.concat(dfs, ignore_index=True)]: the rows of the frames one after
    the other under a fresh row index. Frames with the same columns are
    stacked as they are; otherwise the columns are the union of theirs and
    each row is laid out along it, which pandas refuses when a frame
    repeats a label. With nothing to concatenate pandas raises as well. *)
Definition pd_concat (dfs : list DataFrame) : res DataFrame :=
  match dfs with
  | [] => Raised ValueError
  | first :: rest =>
      if forallb (λ df, bool_decide (columns df = columns first)) rest then
        let rows := concat (data <$> dfs) in
        Ok {| index := range_index (length rows); columns := columns first;
              data := rows |}
      else if forallb (λ df, bool_decide (NoDup (columns df))) dfs then
        let cols := union_columns dfs in
        let rows := concat ((λ df, reindex_row (columns df) cols <$> data df) <$> dfs) in
        Ok {| index := range_index (length rows); columns := cols; data := rows |}
      else Raised InvalidIndexError
  end.

(** [process_single_image] from the outcome of lines 117-134 (JPEG
    encoding, the guard on the payload, the request): an exception there
    is reported and gives [None]. What [preprocess_image] showed before
    is carried by [file_content]. *)
Definition process_single_image (recognized : res OcrData) (processing_mode : string)
    : option DataFrame * list st_call :=
  match recognized with
  | Raised e => (None, [StErrorImage e])
  | Ok ocr_data => process_table_data_run ocr_data processing_mode
  end.

(** One iteration of the loop over [uploaded_files]; the state is
    [all_data] and the messages shown so far. *)
Definition recognize_file (processing_mode : string)
    (st : list DataFrame * list st_call) (file : UploadedFile)
    : list DataFrame * list st_call :=
  let '(all_data, shown) := st in
  match content file with
  | Undecodable e => (all_data, shown ++ [StErrorFile (name file) e])
  | Unrecognized pre e =>
      (all_data,
       shown ++ preprocess_shown pre
             ++ (process_single_image (Raised e) processing_mode).2)
  | Recognized pre ocr_data =>
      let '(r, msgs) := process_single_image (Ok ocr_data) processing_mode in
      match r with
      | Some df =>
          let df := set_column df source_column (PStr (name file)) in
          (all_data ++ [df],
           shown ++ preprocess_shown pre ++ msgs
                 ++ [StSuccess (name file) (length (index df))])
      | None => (all_data, shown ++ preprocess_shown pre ++ msgs)
      end
  end.

Definition recognize_all (processing_mode : string) (files : list UploadedFile)
    : list DataFrame * list st_call :=
  foldl (recognize_file processing_mode) ([], []) files.

(** The click on the button: [final_df], if one is made, and the messages.
    The button is on the page only while files are uploaded (line 162). *)
Definition run_batch (files : list UploadedFile) (processing_mode : string)
    : option DataFrame * list st_call :=
  let '(all_data, shown) := recognize_all processing_mode files in
  match all_data with
  | [] => (None, shown ++ [StErrorNoData])
  | _ :: _ =>
      match pd_concat all_data with
      | Ok final_df => (Some final_df, shown)
      | Raised e => (None, shown ++ [StErrorMerge e])
      end
  end.

(** ** preprocess_image *)

(** The Pillow operations the function calls, each of which may raise. *)
Class Pillow (Image : Type) := {
  image_mode : Image → string;
  image_size : Image → Z * Z;
  convert_RGB : Image → res Image;
  (* Image.new, ImageChops.difference and getbbox *)
  white_bbox : Image → res (option (Z * Z * Z * Z));
  crop : Image → Z * Z * Z * Z → res Image;
  (* ImageOps.expand(img, border=20, fill='white') *)
  expand_border : Image → res Image;
  (* img.thumbnail((2000, 2000)) *)
  thumbnail : Image → res Image
}.

Section preprocess.
Context {Image : Type} `{Pillow Image}.

(** The local variable [img] and the exception raised so far, if any:
    a statement runs only while no exception is pending, and an
    assignment takes effect only when its right-hand side returned. *)
Definition assign (rhs : Image → res Image) (st : Image * option exn)
    : Image * option exn :=
  match st with
  | (img, Some e) => (img, Some e)
  | (img, None) =>
      match rhs img with
      | Ok img' => (img', None)
      | Raised e => (img, Some e)
      end
  end.

Definition preprocess_image_run (img : Image) (mode : string)
    : Image * list st_call :=
  let st := (img, None) in
  let st := assign (λ img,
    if bool_decide (image_mode img ≠ "RGB") then convert_RGB img else Ok img) st in
  let st :=
    if bool_decide (mode = "enhanced") then
      let st := assign (λ img,
        bbox ← white_bbox img;
        match bbox with
        | Some box => crop img box
        | None => Ok img
        end) st in
      assign expand_border st
    else st in
  let st := assign (λ img,
    if bool_decide (2000 < Z.max (image_size img).1 (image_size img).2)%Z
    then thumbnail img else Ok img) st in
  match st with
  | (img, None) => (img, [])
  | (img, Some e) => (img, [StErrorPreprocess e])
  end.

Definition preprocess_image (img : Image) (mode : string) : Image :=
  (preprocess_image_run img mode).1.
End preprocess.

(** ** Notions the properties are stated with *)

(** A response with a single detection made of [cells]. *)
Definition response_of (cells : list Cell) : OcrData :=
  {| TableDetections := Some [ {| Cells := Some cells |} ] |}.

Definition mk_cell (r c rs cs : Z) (t : string) : Cell :=
  {| RowTl := Some r; ColTl := Some c; RowSpan := Some rs; ColSpan := Some cs;
     Text := Some (PStr t) |}.

(** The cell list of the worked example. *)
Definition example_cells : list Cell :=
  [ mk_cell 0 0 1 2 "Name"; mk_cell 0 2 1 1 "Age"; mk_cell 1 0 1 1 "Ann";
    mk_cell 1 1 1 1 "30"; mk_cell 1 2 1 1 "" ].

(** Two cells with a blank row between them, and two with a blank column. *)
Definition gap_row_cells : list Cell :=
  [ mk_cell 0 0 1 1 "a"; mk_cell 2 0 1 1 "b" ].
Definition gap_col_cells : list Cell :=
  [ mk_cell 0 0 1 1 "a"; mk_cell 0 2 1 1 "b" ].

(** A response whose first detection has no cells and whose second has one. *)
Definition second_detection_only : OcrData :=
  {| TableDetections :=
       Some [ {| Cells := Some [] |}; {| Cells := Some [mk_cell 0 0 1 1 "x"] |} ] |}.

(** A detection that makes the loop [continue]. *)
Definition no_cells (table : TableDetection) : Prop :=
  Cells table = None ∨ Cells table = Some [].

(** The cell names its origin, and the origin is a grid coordinate. *)
Definition explicit_origin (cell : Cell) : Prop :=
  ∃ r c, RowTl cell = Some r ∧ ColTl cell = Some c ∧ (0 ≤ r)%Z ∧ (0 ≤ c)%Z.

(** A Cell of the data model: origin at a grid coordinate, spans at least 1. *)
Definition well_formed (cell : Cell) : Prop :=
  explicit_origin cell ∧ (1 ≤ row_span cell)%Z ∧ (1 ≤ col_span cell)%Z.

(** The position [(r, c)] lies in the span rectangle of [cell]. *)
Definition covers (cell : Cell) (r c : Z) : Prop :=
  (row_start cell ≤ r < row_start cell + row_span cell)%Z ∧
  (col_start cell ≤ c < col_start cell + col_span cell)%Z.

#[global] Instance covers_dec cell r c : Decision (covers cell r c).
Proof. unfold covers. apply _. Defined.

Definition row_end (cell : Cell) : Z := (row_start cell + row_span cell)%Z.
Definition col_end (cell : Cell) : Z := (col_start cell + col_span cell)%Z.

(** [m] is the maximum of [f] over [cells]. *)
Definition is_max (f : Cell → Z) (cells : list Cell) (m : Z) : Prop :=
  (∃ cell, cell ∈ cells ∧ f cell = m) ∧ ∀ cell, cell ∈ cells → (f cell ≤ m)%Z.

(** The entry of a grid at a position given by two integers. *)
Definition grid_at (grid : Grid) (r c : Z) : option pyval :=
  if decide (0 ≤ r ∧ 0 ≤ c)%Z
  then row ← grid !! Z.to_nat r; row !! Z.to_nat c
  else None.

(** A grid of [rows] rows, each of [cols] entries. *)
Definition grid_dims (rows cols : nat) (grid : Grid) : Prop :=
  length grid = rows ∧ Forall (λ row, length row = cols) grid.

(** A frame whose labels fit its matrix. *)
Definition frame_ok (df : DataFrame) : Prop :=
  length (index df) = length (data df) ∧
  Forall (λ row, length row = length (columns df)) (data df).

(** The entry of a frame in its [i]-th row under the column [lbl]. *)
Definition frame_at (df : DataFrame) (i : nat) (lbl : label) : option pyval :=
  row ← data df !! i; j ← label_position lbl (columns df); row !! j.

(** The Table a file contributes to the batch, tagged with its name. *)
Definition file_table (processing_mode : string) (file : UploadedFile)
    : option DataFrame :=
  match content file with
  | Recognized _ ocr_data =>
      (λ df, set_column df source_column (PStr (name file)))
        <$> process_table_data ocr_data processing_mode
  | _ => None
  end.

(** The number of rows of the Tables in front of the [k]-th one. *)
Definition rows_before (tables : list DataFrame) (k : nat) : nat :=
  sum_list ((λ t, length (data t)) <$> take k tables).

(** Three uploads: a recognized table, an unreadable image, and a
    recognized table with a wider grid. *)
Definition example_batch : list UploadedFile :=
  [ {| name := "a.png"; content := Recognized None (response_of example_cells) |};
    {| name := "b.png"; content := Undecodable (ExternalError "UnidentifiedImageError") |};
    {| name := "c.png";
       content :=
         Recognized None (response_of [mk_cell 0 0 1 1 "x"; mk_cell 0 3 1 1 "y"]) |} ].

(** ** A stand-in for Pillow with a memory budget *)

Record picture := { pmode : string; width : Z; height : Z }.

#[global] Instance picture_eq_dec : EqDecision picture.
Proof. solve_decision. Defined.

(** The number of pixels one more canvas may have. *)
Definition canvas_budget : Z := 100000000.

Definition allocate (p : picture) : res picture :=
  if bool_decide (width p * height p ≤ canvas_budget)%Z then Ok p
  else Raised (ExternalError "MemoryError").

#[global] Instance picture_pillow : Pillow picture := {|
  image_mode := pmode;
  image_size := λ p, (width p, height p);
  convert_RGB := λ p, Ok {| pmode := "RGB"; width := width p; height := height p |};
  white_bbox := λ p, _ ← allocate p; Ok (Some (0, 0, width p, height p)%Z);
  crop := λ p box,
    match box with
    | (x0, y0, x1, y1) =>
        Ok {| pmode := pmode p; width := x1 - x0; height := y1 - y0 |}
    end;
  expand_border := λ p,
    allocate {| pmode := pmode p; width := width p + 40; height := height p + 40 |};
  thumbnail := λ p,
    let m := Z.max (width p) (height p) in
    Ok {| pmode := pmode p;
          width := Z.max 1 (width p * 2000 / m);
          height := Z.max 1 (height p * 2000 / m) |}
|}.

(** A 12000 x 12000 greyscale scan. *)
Definition large_scan : picture := {| pmode := "L"; width := 12000; height := 12000 |}.

(** ** process_single_image, step by step *)

(** The two outside steps of lines 117-135: the JPEG encoding of the image
    followed by its base64 encoding, and the request to the recognition
    service with the parse of its answer. Each may raise. *)
Class Gateway (Image : Type) := {
  encode_jpeg_base64 : Image → res string;
  recognize : string → res OcrData
}.

Section single_image.
Context {Image : Type} `{Pillow Image} `{Gateway Image}.

(** Lines 117-134: the payload, the guard on its length and the request. *)
Definition recognition_steps (img : Image) : res OcrData :=
  img_base64 ← encode_jpeg_base64 img;
  if bool_decide (String.length img_base64 < 100) then Raised ValueError
  else recognize img_base64.

(** [process_single_image(img, processing_mode)] with the messages shown. *)
Definition process_single_image_steps (img : Image) (processing_mode : string)
    : option DataFrame * list st_call :=
  let '(img, shown) :=
    preprocess_image_run img
      (if bool_decide (processing_mode = "enhanced") then "enhanced" else "default") in
  let '(r, msgs) := process_single_image (recognition_steps img) processing_mode in
  (r, shown ++ msgs).


End single_image.

(** ** What a file shows *)

(** The messages one file adds to the page. *)
Definition file_messages (processing_mode : string) (file : UploadedFile)
    : list st_call :=
  match content file with
  | Undecodable e => [StErrorFile (name file) e]
  | Unrecognized pre e => preprocess_shown pre ++ [StErrorImage e]
  | Recognized pre ocr_data =>
      preprocess_shown pre ++
      match process_table_data_try ocr_data processing_mode with
      | Raised e => [StErrorTable e]
      | Ok None => []
      | Ok (Some df) => [StSuccess (name file) (length (data df))]
      end
  end.

(** The value a row holds under [lbl] in a frame with columns [cols]. *)
Definition row_at (cols : list label) (row : list pyval) (lbl : label)
    : option pyval :=
  j ← label_position lbl cols; row !! j.

(** ** A second stand-in: sheets that may be blank or unreadable *)

Record sheet := {
  smode : string;
  swidth : Z;
  sheight : Z;
  blank : bool;
  readable : bool
}.

#[global] Instance sheet_eq_dec : EqDecision sheet.
Proof. solve_decision. Defined.

(** Decoding the pixels of a lazily opened file. *)
Definition load (s : sheet) : res sheet :=
  if readable s then Ok s else Raised (ExternalError "OSError").

Definition resized (s : sheet) (w h : Z) : sheet :=
  {| smode := smode s; swidth := w; sheight := h; blank := blank s;
     readable := readable s |}.

#[global] Instance sheet_pillow : Pillow sheet := {|
  image_mode := smode;
  image_size := λ s, (swidth s, sheight s);
  convert_RGB := λ s,
    s ← load s;
    Ok {| smode := "RGB"; swidth := swidth s; sheight := sheight s;
          blank := blank s; readable := readable s |};
  white_bbox := λ s,
    s ← load s;
    Ok (if blank s then None else Some (0, 0, swidth s, sheight s)%Z);
  crop := λ s box,
    match box with
    | (x0, y0, x1, y1) => Ok (resized s (x1 - x0) (y1 - y0))
    end;
  expand_border := λ s, Ok (resized s (swidth s + 40) (sheight s + 40));
  thumbnail := λ s,
    s ← load s;
    let m := Z.max (swidth s) (sheight s) in
    Ok (resized s (Z.max 1 (swidth s * 2000 / m)) (Z.max 1 (sheight s * 2000 / m)))
|}.

(** A payload of [n] characters. *)
Fixpoint payload (n : nat) : string :=
  match n with
  | O => ""
  | S n' => String.append "A" (payload n')
  end.

(** A gateway whose payload has one character per pixel and whose service
    always answers with the worked example. *)
#[global] Instance sheet_gateway : Gateway sheet := {|
  encode_jpeg_base64 := λ s,
    s ← load s; Ok (payload (Z.to_nat (swidth s * sheight s)));
  recognize := λ _, Ok (response_of example_cells)
|}.

Definition rgb_sheet (w h : Z) : sheet :=
  {| smode := "RGB"; swidth := w; sheight := h; blank := false; readable := true |}.

(** ** Tactics for concrete cell lists *)

Ltac solve_origin :=
  repeat first
    [ apply Forall_nil_2
    | apply Forall_cons_2
    | (eexists _, _; split; [reflexivity|]; split; [reflexivity|]; split; lia) ].

Ltac solve_covers :=
  unfold covers, row_start, col_start, row_span, col_span; simpl; lia.

Ltac solve_well_formed :=
  repeat first
    [ apply Forall_nil_2
    | apply Forall_cons_2
    | (split;
       [ eexists _, _; split; [reflexivity|]; split; [reflexivity|]; split; lia
       | unfold row_span, col_span; simpl; lia ]) ].

(** * Properties *)

(** ** The error monad, generators and [max] *)

Lemma bind_Ok {A B} (m : res A) (f : A → res B) (b : B) :
  m ≫= f = Ok b ↔ ∃ a, m = Ok a ∧ f a = Ok b.
Proof.
  destruct m as [a|e]; simpl; split.
  - intros Hf. exists a. done.
  - intros (a' & [= <-] & Hf). done.
  - done.
  - intros (a' & Hm & _). done.
Qed.

Lemma for_each_invariant_in {A S} (P : S → Prop) (body : S → A → res S) xs :
  (∀ s x s', x ∈ xs → P s → body s x = Ok s' → P s') →
  ∀ s s', P s → for_each body xs s = Ok s' → P s'.
Proof.
  induction xs as [|x xs IH]; intros Hbody s s' Hs; simpl.
  - intros [= <-]. done.
  - intros (s1 & H1 & Hrest)%bind_Ok. eapply IH; [| |done].
    + intros s2 y s2' Hy. apply Hbody. by right.
    + eapply Hbody; [left|done..].
Qed.

Lemma for_each_invariant {A S} (P : S → Prop) (body : S → A → res S) xs :
  (∀ s x s', P s → body s x = Ok s' → P s') →
  ∀ s s', P s → for_each body xs s = Ok s' → P s'.
Proof. intros Hbody. apply for_each_invariant_in. eauto. Qed.

Lemma foldl_max_spec (x : Z) (xs : list Z) :
  foldl Z.max x xs ∈ x :: xs ∧ ∀ y, y ∈ x :: xs → (y ≤ foldl Z.max x xs)%Z.
Proof.
  revert x. induction xs as [|a xs IH]; intros x; simpl.
  - split; [left|]. intros y ->%list_elem_of_singleton. lia.
  - destruct (IH (Z.max x a)) as [Hin Hle]. split.
    + apply elem_of_cons in Hin as [-> | Hin].
      * destruct (Z.max_spec x a) as [[_ ->] | [_ ->]]; [right; left | left].
      * by do 2 right.
    + intros y Hy.
      assert (Z.max x a ≤ foldl Z.max (Z.max x a) xs)%Z by (apply Hle; left).
      apply elem_of_cons in Hy as [-> | Hy]; [lia|].
      apply elem_of_cons in Hy as [-> | Hy]; [lia|].
      apply Hle. by right.
Qed.

Lemma gen_eval_fmap {A B} (f : A → res B) (g : A → B) (xs : list A) :
  (∀ x, x ∈ xs → f x = Ok (g x)) → gen_eval f xs = Ok (g <$> xs).
Proof.
  induction xs as [|x xs IH]; intros Hf; simpl; [done|].
  rewrite Hf by left. simpl. rewrite IH; [done|].
  intros y Hy. apply Hf. by right.
Qed.

Lemma gen_eval_raises {A B} (f : A → res B) (xs : list A) (x : A) e :
  x ∈ xs → f x = Raised e → ∃ e', gen_eval f xs = Raised e'.
Proof.
  induction xs as [|y xs IH]; intros Hin Hf; [by apply elem_of_nil in Hin|].
  simpl. apply elem_of_cons in Hin as [<- | Hin].
  - rewrite Hf. by eexists.
  - destruct (f y) as [b|e1]; simpl; [|by eexists].
    destruct (IH Hin Hf) as [e' ->]. by eexists.
Qed.

Lemma is_max_unique f cells m m' : is_max f cells m → is_max f cells m' → m = m'.
Proof.
  intros [(c & Hc & <-) Hle] [(c' & Hc' & <-) Hle'].
  specialize (Hle _ Hc'). specialize (Hle' _ Hc). lia.
Qed.

Lemma row_extent_explicit cell : explicit_origin cell → row_extent cell = Ok (row_end cell).
Proof.
  intros (r & c & Hr & Hc & _). unfold row_extent, row_end, row_start.
  rewrite Hr. done.
Qed.

Lemma col_extent_explicit cell : explicit_origin cell → col_extent cell = Ok (col_end cell).
Proof.
  intros (r & c & Hr & Hc & _). unfold col_extent, col_end, col_start.
  rewrite Hc. done.
Qed.

(** ** Writes into the grid *)

Lemma py_index_in_bounds (len : nat) (i : Z) :
  (0 ≤ i < Z.of_nat len)%Z → py_index len i = Ok (Z.to_nat i).
Proof. intros Hi. unfold py_index. by rewrite decide_True. Qed.

Lemma new_grid_dims (max_row max_col : Z) :
  grid_dims (Z.to_nat max_row) (Z.to_nat max_col) (new_grid max_row max_col).
Proof.
  split; unfold new_grid.
  - by rewrite length_replicate.
  - apply Forall_replicate. by rewrite length_replicate.
Qed.

(** An assignment never changes the shape of the grid, wherever it lands. *)
Lemma grid_setitem_dims (R C : nat) grid r c t grid' :
  grid_dims R C grid → grid_setitem grid r c t = Ok grid' → grid_dims R C grid'.
Proof.
  intros [Hlen Hrows]. unfold grid_setitem.
  intros (ri & Hri & Hset)%bind_Ok.
  destruct (grid !! ri) as [row|] eqn:Hrow; [|done].
  apply bind_Ok in Hset as (ci & Hci & [= <-]).
  split; [by rewrite length_insert|].
  apply Forall_insert; [done|]. rewrite length_insert.
  by eapply (Forall_lookup_1 _ _ _ _ Hrows).
Qed.

Lemma grid_setitem_in_bounds (R C : nat) grid r c t :
  grid_dims R C grid → (0 ≤ r < Z.of_nat R)%Z → (0 ≤ c < Z.of_nat C)%Z →
  ∃ grid', grid_setitem grid r c t = Ok grid' ∧ grid_dims R C grid' ∧
    ∀ r' c', grid_at grid' r' c' =
      if decide (r' = r ∧ c' = c) then Some t else grid_at grid r' c'.
Proof.
  intros Hdims Hr Hc. pose proof Hdims as [Hlen Hrows].
  assert (is_Some (grid !! Z.to_nat r)) as [row Hrow]
    by (apply lookup_lt_is_Some; lia).
  assert (length row = C) as Hrowlen
    by (by eapply (Forall_lookup_1 _ _ _ _ Hrows)).
  assert (grid_setitem grid r c t
          = Ok (<[Z.to_nat r := <[Z.to_nat c := t]> row]> grid)) as Hset.
  { unfold grid_setitem. rewrite py_index_in_bounds by lia. simpl.
    rewrite Hrow. rewrite py_index_in_bounds by lia. done. }
  eexists. split; [exact Hset|]. split; [by eapply grid_setitem_dims|].
  intros r' c'. unfold grid_at.
  destruct (decide (0 ≤ r' ∧ 0 ≤ c')%Z) as [Hpos|Hneg].
  - destruct (decide (Z.to_nat r' = Z.to_nat r)) as [Heq|Hne].
    + rewrite Heq, list_lookup_insert_eq by lia. simpl.
      assert (r' = r) as -> by lia.
      destruct (decide (Z.to_nat c' = Z.to_nat c)) as [Heqc|Hnec].
      * rewrite Heqc, list_lookup_insert_eq by lia.
        rewrite decide_True by lia. done.
      * rewrite list_lookup_insert_ne by done.
        rewrite decide_False by lia. rewrite Hrow. done.
    + rewrite list_lookup_insert_ne by done.
      rewrite decide_False by lia. done.
  - rewrite decide_False by lia. done.
Qed.

(** The inner loop over the columns of one row. *)
Lemma fill_columns (R C : nat) r t (cs : list Z) :
  (0 ≤ r < Z.of_nat R)%Z → (∀ c, c ∈ cs → (0 ≤ c < Z.of_nat C)%Z) →
  ∀ grid, grid_dims R C grid →
  ∃ grid', for_each (λ g c, grid_setitem g r c t) cs grid = Ok grid' ∧
    grid_dims R C grid' ∧
    ∀ r' c', grid_at grid' r' c' =
      if decide (r' = r ∧ c' ∈ cs) then Some t else grid_at grid r' c'.
Proof.
  intros Hr. induction cs as [|c cs IH]; intros Hcs grid Hdims; cbn [for_each].
  - exists grid. split; [done|]. split; [done|].
    intros r' c'. rewrite decide_False; [done|].
    intros [_ []%elem_of_nil].
  - destruct (grid_setitem_in_bounds R C grid r c t) as (g1 & -> & Hd1 & Hat1);
      [done|done|apply Hcs; left|].
    simpl. destruct (IH (λ c' H', Hcs c' (list_elem_of_further _ _ _ H')) g1 Hd1)
      as (g2 & -> & Hd2 & Hat2).
    exists g2. split; [done|]. split; [done|].
    intros r' c'. rewrite Hat2, Hat1.
    repeat case_decide; try done; exfalso; set_solver.
Qed.

(** The two nested loops over a rectangle that lies inside the grid. *)
Lemma fill_rectangle (R C : nat) t (rs cs : list Z) :
  (∀ c, c ∈ cs → (0 ≤ c < Z.of_nat C)%Z) →
  (∀ r, r ∈ rs → (0 ≤ r < Z.of_nat R)%Z) →
  ∀ grid, grid_dims R C grid →
  ∃ grid',
    for_each (λ g r, for_each (λ g' c, grid_setitem g' r c t) cs g) rs grid
      = Ok grid' ∧
    grid_dims R C grid' ∧
    ∀ r' c', grid_at grid' r' c' =
      if decide (r' ∈ rs ∧ c' ∈ cs) then Some t else grid_at grid r' c'.
Proof.
  intros Hcs. induction rs as [|r rs IH]; intros Hrs grid Hdims; cbn [for_each].
  - exists grid. split; [done|]. split; [done|].
    intros r' c'. rewrite decide_False; [done|].
    intros [[]%elem_of_nil _].
  - destruct (fill_columns R C r t cs) with (grid := grid)
      as (g1 & -> & Hd1 & Hat1); [apply Hrs; left|done|done|].
    simpl. destruct (IH (λ r' H', Hrs r' (list_elem_of_further _ _ _ H')) g1 Hd1)
      as (g2 & -> & Hd2 & Hat2).
    exists g2. split; [done|]. split; [done|].
    intros r' c'. rewrite Hat2, Hat1.
    repeat case_decide; try done; exfalso; set_solver.
Qed.

Lemma elem_of_py_range (a b x : Z) : x ∈ py_range a b ↔ (a ≤ x < b)%Z.
Proof. unfold py_range. rewrite elem_of_seqZ. lia. Qed.

(** One cell whose rectangle lies inside the grid paints exactly its span. *)
Lemma fill_cell_spec (max_row max_col : Z) cell grid :
  explicit_origin cell → (row_end cell ≤ max_row)%Z → (col_end cell ≤ max_col)%Z →
  grid_dims (Z.to_nat max_row) (Z.to_nat max_col) grid →
  ∃ grid', fill_cell max_row max_col grid cell = Ok grid' ∧
    grid_dims (Z.to_nat max_row) (Z.to_nat max_col) grid' ∧
    ∀ r c, grid_at grid' r c =
      if decide (covers cell r c) then Some (text cell) else grid_at grid r c.
Proof.
  intros (r0 & c0 & Hr0 & Hc0 & Hr0pos & Hc0pos) Hrow Hcol Hdims.
  assert (row_start cell = r0) as Hrs by (unfold row_start; by rewrite Hr0).
  assert (col_start cell = c0) as Hcs by (unfold col_start; by rewrite Hc0).
  unfold row_end in Hrow. unfold col_end in Hcol.
  destruct (fill_rectangle (Z.to_nat max_row) (Z.to_nat max_col) (text cell)
              (row_range max_row cell) (col_range max_col cell))
    with (grid := grid) as (grid' & Hfill & Hdims' & Hat); [| |done|].
  - intros c. unfold col_range. rewrite elem_of_py_range. lia.
  - intros r. unfold row_range. rewrite elem_of_py_range. lia.
  - exists grid'. split; [exact Hfill|]. split; [done|].
    intros r c. rewrite Hat.
    assert (r ∈ row_range max_row cell ∧ c ∈ col_range max_col cell
            ↔ covers cell r c) as Hiff.
    { unfold row_range, col_range, covers. rewrite !elem_of_py_range. lia. }
    repeat case_decide; try done; exfalso; tauto.
Qed.

(** After the loop over the cells every position holds the text of the
    last cell covering it, or what it held before when none does. *)
Lemma fill_grid_spec (max_row max_col : Z) (cells : list Cell) :
  Forall explicit_origin cells →
  (∀ cell, cell ∈ cells → (row_end cell ≤ max_row)%Z ∧ (col_end cell ≤ max_col)%Z) →
  ∀ grid, grid_dims (Z.to_nat max_row) (Z.to_nat max_col) grid →
  ∃ grid', fill_grid max_row max_col cells grid = Ok grid' ∧
    grid_dims (Z.to_nat max_row) (Z.to_nat max_col) grid' ∧
    ∀ r c, grid_at grid' r c =
      match last (filter (λ cell, covers cell r c) cells) with
      | Some cell => Some (text cell)
      | None => grid_at grid r c
      end.
Proof.
  unfold fill_grid.
  induction cells as [|cell cells IH]; intros Horigin Hends grid Hdims;
    cbn [for_each].
  - exists grid. done.
  - apply Forall_cons in Horigin as [Hcell Horigin].
    destruct (Hends cell) as [Hrow Hcol]; [left|].
    destruct (fill_cell_spec max_row max_col cell grid)
      as (g1 & -> & Hd1 & Hat1); [done..|].
    simpl.
    destruct (IH Horigin (λ c' H', Hends c' (list_elem_of_further _ _ _ H')) g1 Hd1)
      as (g2 & -> & Hd2 & Hat2).
    exists g2. split; [done|]. split; [done|].
    intros r c. rewrite Hat2, Hat1. rewrite filter_cons.
    destruct (decide (covers cell r c)) as [Hcov|Hcov].
    + rewrite last_cons.
      destruct (last (filter (λ cell0, covers cell0 r c) cells)); done.
    + done.
Qed.

Lemma py_max_fmap (g : Cell → Z) (cells : list Cell) :
  cells ≠ [] → ∃ m, py_max (g <$> cells) = Ok m ∧ is_max g cells m.
Proof.
  intros Hne. destruct cells as [|c cells]; [done|]. simpl.
  destruct (foldl_max_spec (g c) (g <$> cells)) as [Hin Hle].
  exists (foldl Z.max (g c) (g <$> cells)). split; [done|]. split.
  - change (g c :: (g <$> cells)) with (g <$> (c :: cells)) in Hin.
    apply list_elem_of_fmap in Hin as (cell & Heq & Hcell). eauto.
  - intros cell Hcell. apply Hle.
    change (g c :: (g <$> cells)) with (g <$> (c :: cells)).
    apply list_elem_of_fmap. eauto.
Qed.

(** Lines 74-91 on cells that name their origin. *)
Lemma build_grid_spec (cells : list Cell) :
  cells ≠ [] → Forall explicit_origin cells →
  ∃ max_row max_col grid,
    is_max row_end cells max_row ∧ is_max col_end cells max_col ∧
    gen_eval row_extent cells ≫= py_max = Ok max_row ∧
    gen_eval col_extent cells ≫= py_max = Ok max_col ∧
    fill_grid max_row max_col cells (new_grid max_row max_col) = Ok grid ∧
    build_grid cells = Ok grid ∧
    grid_dims (Z.to_nat max_row) (Z.to_nat max_col) grid ∧
    ∀ r c, grid_at grid r c =
      match last (filter (λ cell, covers cell r c) cells) with
      | Some cell => Some (text cell)
      | None => grid_at (new_grid max_row max_col) r c
      end.
Proof.
  intros Hne Horigin.
  destruct (py_max_fmap row_end cells Hne) as (max_row & Hmr & Hrmax).
  destruct (py_max_fmap col_end cells Hne) as (max_col & Hmc & Hcmax).
  assert (gen_eval row_extent cells = Ok (row_end <$> cells)) as Hrows.
  { apply gen_eval_fmap. intros cell Hcell. apply row_extent_explicit.
    by eapply (proj1 (Forall_forall _ _) Horigin). }
  assert (gen_eval col_extent cells = Ok (col_end <$> cells)) as Hcols.
  { apply gen_eval_fmap. intros cell Hcell. apply col_extent_explicit.
    by eapply (proj1 (Forall_forall _ _) Horigin). }
  destruct (fill_grid_spec max_row max_col cells Horigin)
    with (grid := new_grid max_row max_col) as (grid & Hfill & Hdims & Hat).
  { intros cell Hcell. split; [by apply Hrmax | by apply Hcmax]. }
  { apply new_grid_dims. }
  exists max_row, max_col, grid.
  repeat (split; [first [done | by rewrite ?Hrows, ?Hcols]|]).
  split.
  - unfold build_grid. rewrite Hrows. simpl. rewrite Hmr. simpl.
    rewrite Hcols. simpl. rewrite Hmc. simpl. done.
  - done.
Qed.

(** ** process_table_data on a single detection *)

Lemma process_table_data_try_single (cells : list Cell) (mode : string) :
  cells ≠ [] →
  process_table_data_try (response_of cells) mode =
    grid ← build_grid cells;
    Ok (Some (if bool_decide (mode = "enhanced")
              then enhanced_cleanup (pd_DataFrame grid) else pd_DataFrame grid)).
Proof.
  intros Hne. destruct cells as [|cell cells]; [done|].
  unfold process_table_data_try, response_of. cbn [TableDetections collect_tables].
  unfold process_detection. cbn [Cells].
  destruct (build_grid (cell :: cells)) as [grid|e]; done.
Qed.

Lemma process_table_data_raw (cells : list Cell) (grid : Grid) :
  cells ≠ [] → build_grid cells = Ok grid →
  process_table_data (response_of cells) "raw" = Some (pd_DataFrame grid).
Proof.
  intros Hne Hgrid. unfold process_table_data, process_table_data_run.
  rewrite process_table_data_try_single, Hgrid by done. done.
Qed.

(** C9, as the code has it: when every cell of a detection carries
    explicit [RowTl] and [ColTl] that are not negative, the sizes
    [max_row] and [max_col] computed on lines 74-75 make both clippings of
    line 89-90 the identity, every position the fill loop visits lies
    inside the allocated grid, the assignment [grid[r][c] = text] there
    succeeds on any grid of that size, and the whole fill loop ends
    without an exception. *)
Theorem fill_writes_in_bounds (cells : list Cell) :
  cells ≠ [] → Forall explicit_origin cells →
  ∃ max_row max_col,
    gen_eval row_extent cells ≫= py_max = Ok max_row ∧
    gen_eval col_extent cells ≫= py_max = Ok max_col ∧
    (∀ cell, cell ∈ cells →
       Z.min (row_start cell + row_span cell) max_row
         = (row_start cell + row_span cell)%Z ∧
       Z.min (col_start cell + col_span cell) max_col
         = (col_start cell + col_span cell)%Z ∧
       ∀ r c, r ∈ row_range max_row cell → c ∈ col_range max_col cell →
         (0 ≤ r < max_row)%Z ∧ (0 ≤ c < max_col)%Z ∧
         ∀ grid t, grid_dims (Z.to_nat max_row) (Z.to_nat max_col) grid →
           ∃ grid', grid_setitem grid r c t = Ok grid' ∧
             grid_dims (Z.to_nat max_row) (Z.to_nat max_col) grid') ∧
    ∃ grid, fill_grid max_row max_col cells (new_grid max_row max_col) = Ok grid.
Proof.
  intros Hne Horigin.
  destruct (build_grid_spec cells Hne Horigin)
    as (max_row & max_col & grid & Hrmax & Hcmax & Hmr & Hmc & Hfill & _).
  exists max_row, max_col. split; [done|]. split; [done|]. split; [|eauto].
  intros cell Hcell.
  pose proof (proj2 Hrmax cell Hcell) as Hrow. unfold row_end in Hrow.
  pose proof (proj2 Hcmax cell Hcell) as Hcol. unfold col_end in Hcol.
  split; [lia|]. split; [lia|].
  intros r c Hr Hc.
  unfold row_range in Hr. unfold col_range in Hc.
  apply elem_of_py_range in Hr. apply elem_of_py_range in Hc.
  destruct (proj1 (Forall_forall _ _) Horigin cell Hcell)
    as (r0 & c0 & Hr0 & Hc0 & Hr0pos & Hc0pos).
  unfold row_start in Hr, Hrow. unfold col_start in Hc, Hcol.
  rewrite Hr0 in Hr, Hrow. rewrite Hc0 in Hc, Hcol. simpl in *.
  split; [lia|]. split; [lia|].
  intros g t Hdims.
  destruct (grid_setitem_in_bounds (Z.to_nat max_row) (Z.to_nat max_col) g r c t)
    as (g' & Hset & Hdims' & _); [done|lia|lia|].
  eauto.
Qed.

(** C9 as stated fails: explicit [RowTl] and [ColTl] are not enough. With
    [RowTl = -1] the size is [max_row = 0], the fill loop visits the row
    [-1], which is not inside the grid, and the assignment there raises. *)
Lemma negative_RowTl_counterexample :
  ¬ (∀ (cells : list Cell) (max_row max_col : Z),
       Forall (λ cell, is_Some (RowTl cell) ∧ is_Some (ColTl cell)) cells →
       gen_eval row_extent cells ≫= py_max = Ok max_row →
       gen_eval col_extent cells ≫= py_max = Ok max_col →
       (∀ cell r c, cell ∈ cells →
          r ∈ row_range max_row cell → c ∈ col_range max_col cell →
          (0 ≤ r < max_row)%Z ∧ (0 ≤ c < max_col)%Z) ∧
       ∃ grid, fill_grid max_row max_col cells (new_grid max_row max_col)
                 = Ok grid).
Proof.
  intros Hclaim.
  destruct (Hclaim [ mk_cell (-1) 0 1 1 "b" ] 0%Z 1%Z) as [_ [grid Hfill]].
  - apply Forall_cons_2; [|apply Forall_nil_2]. split; by eexists.
  - reflexivity.
  - reflexivity.
  - vm_compute in Hfill. discriminate Hfill.
Qed.

(** An origin below zero is no grid coordinate: the write wraps around to
    the other end of the grid, or raises when the grid is too small. *)
Remark negative_origin_wraps_or_raises :
  build_grid [ mk_cell 0 0 2 1 "a"; mk_cell (-1) 0 1 1 "b" ]
    = Ok [ [PStr "a"]; [PStr "b"] ] ∧
  build_grid [ mk_cell (-1) 0 1 1 "b" ] = Raised IndexError.
Proof. split; vm_compute; reflexivity. Qed.

(** C4: for cells that name their origin (a grid coordinate), the text
    stored at a position covered by a cell and by none of the cells after
    it in the input is the text of that cell, whatever the cells before it
    wrote there; the raw Table holds this grid. *)
Theorem overlap_last_write_wins (before after : list Cell) (cell : Cell) (r c : Z) :
  Forall explicit_origin (before ++ cell :: after) →
  covers cell r c →
  Forall (λ later, ¬ covers later r c) after →
  ∃ grid,
    build_grid (before ++ cell :: after) = Ok grid ∧
    grid_at grid r c = Some (text cell) ∧
    process_table_data (response_of (before ++ cell :: after)) "raw"
      = Some (pd_DataFrame grid) ∧
    data (pd_DataFrame grid) = grid.
Proof.
  intros Horigin Hcov Hafter.
  assert (before ++ cell :: after ≠ []) as Hne by (by destruct before).
  destruct (build_grid_spec _ Hne Horigin)
    as (max_row & max_col & grid & _ & _ & _ & _ & _ & Hbuild & _ & Hat).
  exists grid. split; [done|]. split.
  - rewrite Hat, filter_app, filter_cons_True by done.
    assert (filter (λ cell0, covers cell0 r c) after = []) as ->.
    { clear -Hafter. induction Hafter as [|x l Hx _ IH]; [done|].
      by rewrite filter_cons_False. }
    by rewrite last_snoc.
  - split; [by apply process_table_data_raw | done].
Qed.

Lemma overlap_last_write_wins_witness :
  ∃ grid,
    build_grid ([mk_cell 0 0 2 2 "old"] ++ mk_cell 1 1 1 1 "new"
                 :: [mk_cell 0 0 1 1 "corner"]) = Ok grid ∧
    grid_at grid 1 1 = Some (text (mk_cell 1 1 1 1 "new")) ∧
    process_table_data
      (response_of ([mk_cell 0 0 2 2 "old"] ++ mk_cell 1 1 1 1 "new"
                     :: [mk_cell 0 0 1 1 "corner"])) "raw"
      = Some (pd_DataFrame grid) ∧
    data (pd_DataFrame grid) = grid.
Proof.
  apply (overlap_last_write_wins [mk_cell 0 0 2 2 "old"]
           [mk_cell 0 0 1 1 "corner"] (mk_cell 1 1 1 1 "new") 1 1).
  - simpl. solve_origin.
  - solve_covers.
  - apply Forall_cons_2; [|apply Forall_nil_2]. solve_covers.
Defined.

Lemma fill_writes_in_bounds_witness :
  ∃ max_row max_col,
    gen_eval row_extent example_cells ≫= py_max = Ok max_row ∧
    gen_eval col_extent example_cells ≫= py_max = Ok max_col ∧
    (∀ cell, cell ∈ example_cells →
       Z.min (row_start cell + row_span cell) max_row
         = (row_start cell + row_span cell)%Z ∧
       Z.min (col_start cell + col_span cell) max_col
         = (col_start cell + col_span cell)%Z ∧
       ∀ r c, r ∈ row_range max_row cell → c ∈ col_range max_col cell →
         (0 ≤ r < max_row)%Z ∧ (0 ≤ c < max_col)%Z ∧
         ∀ grid t, grid_dims (Z.to_nat max_row) (Z.to_nat max_col) grid →
           ∃ grid', grid_setitem grid r c t = Ok grid' ∧
             grid_dims (Z.to_nat max_row) (Z.to_nat max_col) grid') ∧
    ∃ grid, fill_grid max_row max_col example_cells (new_grid max_row max_col)
              = Ok grid.
Proof.
  apply (fill_writes_in_bounds example_cells).
  - discriminate.
  - unfold example_cells. solve_origin.
Defined.

(** C5: for a non-empty list of Cells of the data model, the raw Table has
    exactly [max_row] rows and [max_col] columns, the maxima of
    [row_start + row_span] and of [col_start + col_span] over the cells. *)
Theorem raw_table_shape (cells : list Cell) (max_row max_col : Z) :
  cells ≠ [] → Forall well_formed cells →
  is_max (λ cell, row_start cell + row_span cell)%Z cells max_row →
  is_max (λ cell, col_start cell + col_span cell)%Z cells max_col →
  ∃ df, process_table_data (response_of cells) "raw" = Some df ∧
    Z.of_nat (length (data df)) = max_row ∧
    Z.of_nat (length (index df)) = max_row ∧
    Z.of_nat (length (columns df)) = max_col ∧
    Forall (λ row, Z.of_nat (length row) = max_col) (data df).
Proof.
  intros Hne Hwf Hrmax Hcmax.
  assert (Forall explicit_origin cells) as Horigin.
  { eapply Forall_impl; [exact Hwf|]. by intros cell [? _]. }
  destruct (build_grid_spec cells Hne Horigin)
    as (mr & mc & grid & Hrmax' & Hcmax' & _ & _ & _ & Hbuild & [Hlen Hrows] & _).
  assert (mr = max_row) as -> by (by eapply is_max_unique).
  assert (mc = max_col) as -> by (by eapply is_max_unique).
  assert (1 ≤ max_row ∧ 1 ≤ max_col)%Z as [Hr1 Hc1].
  { destruct Hrmax as [(cr & Hcr & Hcr_eq) _].
    destruct Hcmax as [(cc & Hcc & Hcc_eq) _].
    destruct (proj1 (Forall_forall _ _) Hwf cr Hcr)
      as [(r0 & c0 & Hr0 & Hc0 & Hr0pos & Hc0pos) [Hrs _]].
    destruct (proj1 (Forall_forall _ _) Hwf cc Hcc)
      as [(r1 & c1 & Hr1 & Hc1 & Hr1pos & Hc1pos) [_ Hcs]].
    unfold row_start in Hcr_eq. unfold col_start in Hcc_eq.
    rewrite Hr0 in Hcr_eq. rewrite Hc1 in Hcc_eq. simpl in *. lia. }
  exists (pd_DataFrame grid). split; [by apply process_table_data_raw|].
  unfold pd_DataFrame, range_index. cbn [data index columns].
  rewrite length_fmap, !length_seqZ.
  destruct grid as [|row grid]; [simpl in Hlen; lia|].
  pose proof (Forall_inv Hrows) as Hrow. simpl in Hrow. cbn [head default]. unfold id.
  split; [lia|]. split; [lia|]. split; [lia|].
  eapply Forall_impl; [exact Hrows|]. intros row' Hrow'. simpl in Hrow'. lia.
Qed.

Lemma raw_table_shape_witness :
  ∃ df, process_table_data (response_of example_cells) "raw" = Some df ∧
    Z.of_nat (length (data df)) = 2%Z ∧
    Z.of_nat (length (index df)) = 2%Z ∧
    Z.of_nat (length (columns df)) = 3%Z ∧
    Forall (λ row, Z.of_nat (length row) = 3%Z) (data df).
Proof.
  apply (raw_table_shape example_cells 2 3).
  - discriminate.
  - unfold example_cells. solve_well_formed.
  - split.
    + exists (mk_cell 1 0 1 1 "Ann"). split; [|reflexivity].
      unfold example_cells. do 2 right. left.
    + apply Forall_forall. unfold example_cells.
      repeat first [apply Forall_nil_2 | apply Forall_cons_2];
        unfold row_start, row_span; simpl; lia.
  - split.
    + exists (mk_cell 0 2 1 1 "Age"). split; [|reflexivity].
      unfold example_cells. right. left.
    + apply Forall_forall. unfold example_cells.
      repeat first [apply Forall_nil_2 | apply Forall_cons_2];
        unfold col_start, col_span; simpl; lia.
Defined.

(** C7: the worked example. In raw mode the five cells give the rows
    ["Name","Name","Age"] and ["Ann","30",""], and the enhanced mode gives
    the same Table. *)
Theorem example_reconstruction :
  process_table_data (response_of example_cells) "raw"
    = Some {| index := [0; 1]%Z;
              columns := [LInt 0; LInt 1; LInt 2];
              data := [ [PStr "Name"; PStr "Name"; PStr "Age"];
                        [PStr "Ann"; PStr "30"; PStr ""] ] |} ∧
  process_table_data (response_of example_cells) "enhanced"
    = process_table_data (response_of example_cells) "raw".
Proof. split; vm_compute; reflexivity. Qed.

(** C1: the enhanced mode run on a grid with a blank row, and on one with
    a blank column. [dropna] looks for missing values and the blanks are
    empty strings, so the blank row and the blank column are still there. *)
Theorem enhanced_keeps_blank_row_and_column :
  process_table_data (response_of gap_row_cells) "enhanced"
    = Some {| index := [0; 1; 2]%Z;
              columns := [LInt 0];
              data := [ [PStr "a"]; [PStr ""]; [PStr "b"] ] |} ∧
  process_table_data (response_of gap_col_cells) "enhanced"
    = Some {| index := [0]%Z;
              columns := [LInt 0; LInt 1; LInt 2];
              data := [ [PStr "a"; PStr ""; PStr "b"] ] |}.
Proof. split; vm_compute; reflexivity. Qed.

(** ** The loop over the detections *)

Lemma process_table_data_try_collect (ocr_data : OcrData) (mode : string) :
  process_table_data_try ocr_data mode =
    tables ← collect_tables mode (default [] (TableDetections ocr_data)) [];
    Ok (head tables).
Proof.
  unfold process_table_data_try.
  destruct (TableDetections ocr_data) as [[|table rest]|]; done.
Qed.

Lemma process_detection_no_cells (mode : string) (table : TableDetection) :
  no_cells table → process_detection mode table = Ok None.
Proof. unfold process_detection. by intros [-> | ->]. Qed.

Lemma collect_tables_skip (mode : string) (skipped rest : list TableDetection) tables :
  Forall no_cells skipped →
  collect_tables mode (skipped ++ rest) tables = collect_tables mode rest tables.
Proof.
  induction 1 as [|table skipped Htable _ IH]; [done|].
  simpl. rewrite process_detection_no_cells by done. simpl.
  by rewrite app_nil_r.
Qed.

(** C2, as the code has it: a response without detections, or whose
    detections all lack cells, gives [None] and no error is reported; and
    detections without cells at the front of the response are skipped, so
    the answer is the one the remaining detections give. *)
Theorem detections_without_cells_are_skipped
    (mode : string) (skipped rest : list TableDetection) :
  Forall no_cells skipped →
  process_table_data_run {| TableDetections := None |} mode = (None, []) ∧
  process_table_data_run {| TableDetections := Some skipped |} mode = (None, []) ∧
  process_table_data_run {| TableDetections := Some (skipped ++ rest) |} mode
    = process_table_data_run {| TableDetections := Some rest |} mode.
Proof.
  intros Hskipped. split; [done|].
  assert (∀ rest',
    process_table_data_try {| TableDetections := Some (skipped ++ rest') |} mode
      = process_table_data_try {| TableDetections := Some rest' |} mode) as Hskip.
  { intros rest'. rewrite !process_table_data_try_collect. simpl.
    by rewrite collect_tables_skip. }
  split.
  - unfold process_table_data_run.
    specialize (Hskip []). rewrite app_nil_r in Hskip. by rewrite Hskip.
  - unfold process_table_data_run. by rewrite Hskip.
Qed.

Lemma detections_without_cells_are_skipped_witness :
  process_table_data_run {| TableDetections := None |} "raw" = (None, []) ∧
  process_table_data_run
    {| TableDetections := Some [ {| Cells := Some [] |}; {| Cells := None |} ] |}
    "raw" = (None, []) ∧
  process_table_data_run
    {| TableDetections :=
         Some ([ {| Cells := Some [] |}; {| Cells := None |} ]
               ++ [ {| Cells := Some example_cells |} ]) |} "raw"
    = process_table_data_run
        {| TableDetections := Some [ {| Cells := Some example_cells |} ] |} "raw".
Proof.
  apply (detections_without_cells_are_skipped "raw"
           [ {| Cells := Some [] |}; {| Cells := None |} ]
           [ {| Cells := Some example_cells |} ]).
  apply Forall_cons_2; [by right|].
  apply Forall_cons_2; [by left|].
  apply Forall_nil_2.
Defined.

(** C2 as stated fails: the first detection has no cells, a later one has,
    and the result is the Table of the later one, not [None]. *)
Lemma first_detection_without_cells_counterexample :
  ¬ (∀ (ocr_data : OcrData) (mode : string) first rest,
       TableDetections ocr_data = Some (first :: rest) → no_cells first →
       process_table_data ocr_data mode = None).
Proof.
  intros Hclaim.
  specialize (Hclaim second_detection_only "raw" _ _ eq_refl (or_intror eq_refl)).
  vm_compute in Hclaim. discriminate Hclaim.
Qed.

Lemma build_grid_missing_origin (cells : list Cell) (cell : Cell) :
  cell ∈ cells → RowTl cell = None ∨ ColTl cell = None →
  ∃ e, build_grid cells = Raised e.
Proof.
  intros Hcell Hmissing. unfold build_grid.
  destruct Hmissing as [Hrow | Hcol].
  - destruct (gen_eval_raises row_extent cells cell (KeyError "RowTl")) as [e ->];
      [done| |by eexists].
    unfold row_extent. by rewrite Hrow.
  - destruct (gen_eval row_extent cells) as [row_ends|e]; simpl; [|by eexists].
    destruct (py_max row_ends) as [max_row|e]; simpl; [|by eexists].
    destruct (gen_eval_raises col_extent cells cell (KeyError "ColTl")) as [e ->];
      [done| |by eexists].
    unfold col_extent. by rewrite Hcol.
Qed.

Lemma collect_tables_missing_origin (mode : string) (dets : list TableDetection)
    (table : TableDetection) (cells : list Cell) (cell : Cell) :
  table ∈ dets → Cells table = Some cells → cell ∈ cells →
  RowTl cell = None ∨ ColTl cell = None →
  ∀ tables, ∃ e, collect_tables mode dets tables = Raised e.
Proof.
  intros Htable Hcells Hcell Hmissing.
  induction dets as [|d dets IH]; intros tables;
    [by apply elem_of_nil in Htable|].
  cbn [collect_tables].
  apply elem_of_cons in Htable as [<- | Htable].
  - unfold process_detection. rewrite Hcells.
    destruct cells as [|c cells]; [by apply elem_of_nil in Hcell|].
    destruct (build_grid_missing_origin (c :: cells) cell) as [e ->]; [done..|].
    by eexists.
  - destruct (process_detection mode d) as [r|e]; simpl; [|by eexists].
    by apply IH.
Qed.

(** Whatever the response, the value returned is the one the [try] block
    computed, or [None] when the block raised. *)
Lemma process_table_data_total (ocr_data : OcrData) (mode : string) :
  match process_table_data_try ocr_data mode with
  | Ok r => process_table_data_run ocr_data mode = (r, [])
  | Raised e => process_table_data_run ocr_data mode = (None, [StErrorTable e])
  end.
Proof.
  unfold process_table_data_run.
  by destruct (process_table_data_try ocr_data mode).
Qed.

(** C10: a cell without [RowTl] or without [ColTl], in any detection of
    the response, makes the [try] block raise; the handler reports it and
    the function returns [None], the value it also returns for a response
    in which no table was found. *)
Theorem malformed_cell_returns_none (ocr_data : OcrData) (mode : string)
    (dets : list TableDetection) (table : TableDetection)
    (cells : list Cell) (cell : Cell) :
  TableDetections ocr_data = Some dets → table ∈ dets →
  Cells table = Some cells → cell ∈ cells →
  RowTl cell = None ∨ ColTl cell = None →
  ∃ e,
    process_table_data_try ocr_data mode = Raised e ∧
    process_table_data_run ocr_data mode = (None, [StErrorTable e]) ∧
    process_table_data ocr_data mode = None ∧
    process_table_data ocr_data mode
      = process_table_data {| TableDetections := Some [] |} mode ∧
    ∀ ocr_data' e',
      process_table_data_try ocr_data' mode = Raised e' →
      process_table_data ocr_data' mode = None.
Proof.
  intros Hdets Htable Hcells Hcell Hmissing.
  destruct (collect_tables_missing_origin mode dets table cells cell
              Htable Hcells Hcell Hmissing []) as [e He].
  assert (process_table_data_try ocr_data mode = Raised e) as Htry.
  { rewrite process_table_data_try_collect, Hdets. simpl. by rewrite He. }
  exists e. unfold process_table_data, process_table_data_run.
  rewrite Htry. repeat split; try done.
  intros ocr_data' e' ->. done.
Qed.

Lemma malformed_cell_returns_none_witness :
  ∃ e,
    process_table_data_try
      (response_of [ {| RowTl := None; ColTl := Some 0%Z; RowSpan := None;
                        ColSpan := None; Text := Some (PStr "x") |} ]) "raw"
      = Raised e ∧
    process_table_data_run
      (response_of [ {| RowTl := None; ColTl := Some 0%Z; RowSpan := None;
                        ColSpan := None; Text := Some (PStr "x") |} ]) "raw"
      = (None, [StErrorTable e]) ∧
    process_table_data
      (response_of [ {| RowTl := None; ColTl := Some 0%Z; RowSpan := None;
                        ColSpan := None; Text := Some (PStr "x") |} ]) "raw"
      = None ∧
    process_table_data
      (response_of [ {| RowTl := None; ColTl := Some 0%Z; RowSpan := None;
                        ColSpan := None; Text := Some (PStr "x") |} ]) "raw"
      = process_table_data {| TableDetections := Some [] |} "raw" ∧
    ∀ ocr_data' e',
      process_table_data_try ocr_data' "raw" = Raised e' →
      process_table_data ocr_data' "raw" = None.
Proof.
  eapply (malformed_cell_returns_none _ "raw").
  - reflexivity.
  - left.
  - reflexivity.
  - left.
  - left. reflexivity.
Defined.

(** ** preprocess_image *)

Section preprocess_facts.
Context {Image : Type} `{Pillow Image}.

Lemma assign_convert_ok (img img' : Image) :
  image_mode img ≠ "RGB" → convert_RGB img = Ok img' →
  assign (λ img, if bool_decide (image_mode img ≠ "RGB")
                 then convert_RGB img else Ok img) (img, None) = (img', None).
Proof.
  intros Hmode Hconvert. unfold assign.
  rewrite bool_decide_eq_true_2 by done. by rewrite Hconvert.
Qed.

Lemma assign_convert_fails (img : Image) (e : exn) :
  image_mode img ≠ "RGB" → convert_RGB img = Raised e →
  assign (λ img, if bool_decide (image_mode img ≠ "RGB")
                 then convert_RGB img else Ok img) (img, None) = (img, Some e).
Proof.
  intros Hmode Hconvert. unfold assign.
  rewrite bool_decide_eq_true_2 by done. by rewrite Hconvert.
Qed.

(** When the conversion to RGB went through and the search for the
    bounding box raises, the function returns the converted image. *)
Lemma preprocess_image_after_convert (img img' : Image) (e : exn) :
  image_mode img ≠ "RGB" → convert_RGB img = Ok img' →
  white_bbox img' = Raised e →
  preprocess_image_run img "enhanced" = (img', [StErrorPreprocess e]).
Proof.
  intros Hmode Hconvert Hbbox. unfold preprocess_image_run. cbv zeta.
  rewrite (assign_convert_ok img img') by done.
  rewrite bool_decide_eq_true_2 by done.
  unfold assign. rewrite Hbbox. done.
Qed.

(** An exception in the first statement leaves [img] as it was passed. *)
Lemma preprocess_image_convert_fails (img : Image) (mode : string) (e : exn) :
  image_mode img ≠ "RGB" → convert_RGB img = Raised e →
  preprocess_image_run img mode = (img, [StErrorPreprocess e]).
Proof.
  intros Hmode Hconvert. unfold preprocess_image_run. cbv zeta.
  rewrite (assign_convert_fails img e) by done.
  by destruct (bool_decide (mode = "enhanced")).
Qed.
End preprocess_facts.

(** C6: the greyscale scan in enhanced mode. The conversion to RGB
    succeeds, the next step runs out of memory, and the function returns
    the converted image, which is not the image it was given. *)
Theorem preprocess_image_returns_converted_image :
  preprocess_image_run large_scan "enhanced"
    = ({| pmode := "RGB"; width := 12000; height := 12000 |},
       [StErrorPreprocess (ExternalError "MemoryError")]) ∧
  preprocess_image large_scan "enhanced" ≠ large_scan.
Proof. split; [vm_compute; reflexivity | vm_compute; discriminate]. Qed.

(** ** Masks *)

Lemma select_nil_r {A} (mask : list bool) : select mask (@nil A) = [].
Proof. by destruct mask. Qed.

Lemma select_fmap {A B} (f : A → B) (mask : list bool) (xs : list A) :
  select mask (f <$> xs) = f <$> select mask xs.
Proof.
  revert xs. induction mask as [|b mask IH]; intros [|x xs]; simpl; try done.
  destruct b; simpl; by rewrite IH.
Qed.

Lemma select_zip_with {A B C} (f : A → B → C) (mask : list bool) xs ys :
  select mask (zip_with f xs ys) = zip_with f (select mask xs) (select mask ys).
Proof.
  revert xs ys. induction mask as [|b mask IH]; intros [|x xs] [|y ys];
    simpl; try done.
  all: destruct b; simpl; rewrite ?IH, ?select_nil_r; try done.
  all: by destruct (select mask xs).
Qed.

Lemma select_length_eq {A B} (mask : list bool) (xs : list A) (ys : list B) :
  length xs = length ys → length (select mask xs) = length (select mask ys).
Proof.
  revert xs ys. induction mask as [|b mask IH]; intros [|x xs] [|y ys];
    simpl; try done.
  intros [= Hlen]. destruct b; simpl; by rewrite (IH xs ys).
Qed.

Lemma select_replicate {A} (mask : list bool) (n : nat) (x : A) :
  select mask (replicate n x) = replicate (length (select mask (replicate n x))) x.
Proof.
  revert n. induction mask as [|b mask IH]; intros [|n]; simpl; try done.
  destruct b; simpl; by rewrite <-IH.
Qed.

Lemma select_all_true {A} (mask : list bool) (xs : list A) :
  Forall (λ b, b = true) mask → length xs ≤ length mask → select mask xs = xs.
Proof.
  intros Hmask. revert xs.
  induction Hmask as [|b mask -> _ IH]; intros [|x xs]; simpl; try done; try lia.
  intros Hlen. rewrite IH; [done|lia].
Qed.

Lemma select_self (mask : list bool) : Forall (λ b, b = true) (select mask mask).
Proof.
  induction mask as [|b mask IH]; simpl; [done|].
  destruct b; [by apply Forall_cons_2|done].
Qed.

Lemma select_Forall {A} (P : A → Prop) (mask : list bool) (xs : list A) :
  Forall P xs → Forall P (select mask xs).
Proof.
  intros Hxs. revert mask.
  induction Hxs as [|x xs Hx _ IH]; intros [|b mask]; simpl; try done.
  destruct b; [by apply Forall_cons_2|done].
Qed.

Lemma select_kept {A} (f : A → bool) (xs : list A) :
  Forall (λ x, f x = true) (select (f <$> xs) xs).
Proof.
  induction xs as [|x xs IH]; simpl; [done|].
  destruct (f x) eqn:Hfx; [by apply Forall_cons_2|done].
Qed.

Lemma select_sublist {A} (mask : list bool) (xs : list A) : sublist (select mask xs) xs.
Proof.
  revert xs. induction mask as [|b mask IH]; intros [|x xs]; simpl;
    try apply sublist_nil_l.
  destruct b; [by apply sublist_skip | by apply sublist_cons].
Qed.

(** A mask that is set wherever [f] holds keeps a witness of [existsb f]. *)
Lemma existsb_select {A} (f : A → bool) (mask : list bool) (xs : list A) :
  Forall2 (λ a b, a = true → b = true) (f <$> xs) mask →
  existsb f (select mask xs) = existsb f xs.
Proof.
  revert mask. induction xs as [|x xs IH]; intros mask Himp.
  - by rewrite select_nil_r.
  - rewrite fmap_cons in Himp.
    apply Forall2_cons_inv_l in Himp as (b & mask' & Hb & Hrest & ->).
    simpl. destruct b; simpl.
    + by rewrite IH.
    + destruct (f x); [by specialize (Hb eq_refl)|]. simpl. by apply IH.
Qed.

Lemma any_axis0_cons (n : nat) (row : list pyval) (rows : list (list pyval)) :
  any_axis0 n (row :: rows) = zip_with orb (notna <$> row) (any_axis0 n rows).
Proof. done. Qed.

Lemma any_axis0_length (n : nat) (rows : list (list pyval)) :
  Forall (λ row, length row = n) rows → length (any_axis0 n rows) = n.
Proof.
  induction 1 as [|row rows Hrow _ IH]; simpl.
  - by rewrite length_replicate.
  - rewrite length_zip_with, length_fmap. lia.
Qed.

(** The column flags are set wherever some row holds a value. *)
Lemma any_axis0_covers (n : nat) (rows : list (list pyval)) (row : list pyval) :
  Forall (λ row, length row = n) rows → row ∈ rows →
  Forall2 (λ a b, a = true → b = true) (notna <$> row) (any_axis0 n rows).
Proof.
  intros Hrows. induction Hrows as [|r rows Hr Hrows IH]; intros Hin;
    [by apply elem_of_nil in Hin|].
  pose proof (any_axis0_length n rows Hrows) as Hlen.
  rewrite any_axis0_cons.
  apply Forall2_same_length_lookup_2.
  - rewrite length_zip_with, !length_fmap.
    apply elem_of_cons in Hin as [-> | Hin]; [lia|].
    pose proof (proj1 (Forall_forall _ _) Hrows row Hin). simpl in *. lia.
  - intros j a b Ha Hb ->.
    apply lookup_zip_with_Some in Hb as (a' & b' & -> & Ha' & Hb').
    apply elem_of_cons in Hin as [-> | Hin].
    + rewrite Ha in Ha'. injection Ha' as <-. done.
    + specialize (IH Hin).
      pose proof (Forall2_lookup_lr _ _ _ _ _ _ IH Ha Hb') as Himp.
      rewrite Himp by done. by destruct a'.
Qed.

Lemma any_axis0_select (mask : list bool) (n : nat) (cols : list label)
    (rows : list (list pyval)) :
  length cols = n →
  any_axis0 (length (select mask cols)) (select mask <$> rows)
    = select mask (any_axis0 n rows).
Proof.
  intros Hcols. induction rows as [|row rows IH].
  - simpl. rewrite select_replicate. f_equal.
    apply select_length_eq. by rewrite length_replicate.
  - rewrite fmap_cons, !any_axis0_cons, IH.
    by rewrite select_zip_with, select_fmap.
Qed.

(** ** Frames *)

Lemma range_index_length (n : nat) : length (range_index n) = n.
Proof. unfold range_index. rewrite length_seqZ. lia. Qed.

Lemma pd_DataFrame_ok (R C : nat) (grid : Grid) :
  grid_dims R C grid → frame_ok (pd_DataFrame grid).
Proof.
  intros [Hlen Hrows]. split; simpl.
  - apply range_index_length.
  - rewrite length_fmap, range_index_length.
    destruct grid as [|row grid]; [done|]. simpl.
    pose proof (Forall_inv Hrows) as Hrow. simpl in Hrow.
    eapply Forall_impl; [exact Hrows|]. intros row' Hrow'. simpl in *.
    unfold id. congruence.
Qed.

Lemma dropna_rows_ok (df : DataFrame) : frame_ok df → frame_ok (dropna_rows df).
Proof.
  intros [Hlen Hrows]. split; simpl.
  - by apply select_length_eq.
  - by apply select_Forall.
Qed.

Lemma dropna_cols_ok (df : DataFrame) : frame_ok df → frame_ok (dropna_cols df).
Proof.
  intros [Hlen Hrows]. split; simpl; [by rewrite length_fmap|].
  apply Forall_fmap. eapply Forall_impl; [exact Hrows|].
  intros row Hrow. simpl. by apply select_length_eq.
Qed.

Lemma reset_index_ok (df : DataFrame) : frame_ok df → frame_ok (reset_index df).
Proof.
  intros [Hlen Hrows]. split; simpl; [|done].
  by rewrite range_index_length.
Qed.

Lemma enhanced_cleanup_ok (df : DataFrame) : frame_ok df → frame_ok (enhanced_cleanup df).
Proof.
  intros Hok. unfold enhanced_cleanup.
  by apply reset_index_ok, dropna_cols_ok, dropna_rows_ok.
Qed.

(** A frame in which every row holds a value loses no row. *)
Lemma dropna_rows_id (df : DataFrame) :
  frame_ok df → Forall (λ row, existsb notna row = true) (data df) →
  dropna_rows df = df.
Proof.
  intros [Hlen Hrows] Hany. destruct df as [idx cols rows]. simpl in *.
  unfold dropna_rows. simpl.
  assert (Forall (λ b, b = true) (any_axis1 rows)) as Hmask.
  { unfold any_axis1. by apply Forall_fmap. }
  assert (length (any_axis1 rows) = length rows) as Hmlen.
  { unfold any_axis1. by rewrite length_fmap. }
  rewrite !select_all_true by (done || lia). done.
Qed.

(** A frame in which every column holds a value loses no column. *)
Lemma dropna_cols_id (df : DataFrame) :
  frame_ok df →
  Forall (λ b, b = true) (any_axis0 (length (columns df)) (data df)) →
  dropna_cols df = df.
Proof.
  intros [Hlen Hrows] Hmask. destruct df as [idx cols rows]. simpl in *.
  unfold dropna_cols. simpl.
  pose proof (any_axis0_length _ _ Hrows) as Hmlen.
  rewrite select_all_true by (done || lia). f_equal.
  transitivity (id <$> rows); [|apply list_fmap_id]. apply Forall_fmap_ext_1.
  eapply Forall_impl; [exact Hrows|]. intros row Hrow. simpl in *.
  apply select_all_true; [done|lia].
Qed.

(** Lines 99-100 applied to their own output change nothing. *)
Lemma enhanced_cleanup_twice (df : DataFrame) :
  frame_ok df → enhanced_cleanup (enhanced_cleanup df) = enhanced_cleanup df.
Proof.
  intros Hok.
  pose proof (dropna_rows_ok df Hok) as Hok1.
  set (df1 := dropna_rows df) in *.
  pose proof Hok1 as [Hlen1 Hrows1].
  set (mask := any_axis0 (length (columns df1)) (data df1)).
  assert (Forall (λ row, existsb notna row = true) (data df1)) as Hany1.
  { unfold df1, dropna_rows, any_axis1. simpl. apply select_kept. }
  set (df3 := enhanced_cleanup df).
  assert (df3 = reset_index (dropna_cols df1)) as Hdf3 by done.
  assert (frame_ok df3) as Hok3 by (by apply enhanced_cleanup_ok).
  assert (data df3 = select mask <$> data df1) as Hdata3 by done.
  assert (columns df3 = select mask (columns df1)) as Hcols3 by done.
  assert (dropna_rows df3 = df3) as Hrows_id.
  { apply dropna_rows_id; [done|]. rewrite Hdata3. apply Forall_fmap.
    apply Forall_forall. intros row Hrow. simpl.
    rewrite existsb_select.
    - by apply (proj1 (Forall_forall _ _) Hany1).
    - by apply any_axis0_covers. }
  assert (dropna_cols df3 = df3) as Hcols_id.
  { apply dropna_cols_id; [done|]. rewrite Hdata3, Hcols3.
    rewrite (any_axis0_select mask (length (columns df1))) by done.
    apply select_self. }
  unfold enhanced_cleanup at 1. rewrite Hrows_id, Hcols_id.
  rewrite Hdf3. unfold reset_index. simpl.
  by rewrite range_index_length.
Qed.

Lemma build_grid_dims (cells : list Cell) (grid : Grid) :
  build_grid cells = Ok grid → ∃ R C, grid_dims R C grid.
Proof.
  unfold build_grid.
  intros (row_ends & _ & (max_row & _ & (col_ends & _ &
            (max_col & _ & Hfill)%bind_Ok)%bind_Ok)%bind_Ok)%bind_Ok.
  exists (Z.to_nat max_row), (Z.to_nat max_col). revert Hfill.
  apply for_each_invariant; [|apply new_grid_dims].
  intros g cell g' Hg. unfold fill_cell.
  apply for_each_invariant; [|done].
  intros g1 r g1' Hg1. apply for_each_invariant; [|done].
  intros g2 c g2' Hg2. by apply grid_setitem_dims.
Qed.

Lemma process_detection_Some (mode : string) (table : TableDetection) (df : DataFrame) :
  process_detection mode table = Ok (Some df) →
  ∃ cells grid, Cells table = Some cells ∧ build_grid cells = Ok grid ∧
    df = if bool_decide (mode = "enhanced")
         then enhanced_cleanup (pd_DataFrame grid) else pd_DataFrame grid.
Proof.
  unfold process_detection. destruct (Cells table) as [[|cell cells]|]; [done| |done].
  intros (grid & Hgrid & [= <-])%bind_Ok. eauto.
Qed.

Lemma collect_tables_Forall (P : DataFrame → Prop) (mode : string)
    (dets : list TableDetection) :
  (∀ table df, process_detection mode table = Ok (Some df) → P df) →
  ∀ acc tables, Forall P acc → collect_tables mode dets acc = Ok tables →
  Forall P tables.
Proof.
  intros HP. induction dets as [|table dets IH]; intros acc tables Hacc; simpl.
  - by intros [= <-].
  - intros (r & Hr & Hrest)%bind_Ok. eapply IH; [|exact Hrest].
    apply Forall_app. split; [done|].
    destruct r as [df|]; simpl; [|done].
    apply Forall_cons_2; [by eapply HP|done].
Qed.

(** Every Table the function returns has the property that each detection's
    Table has. *)
Lemma process_table_data_Some (P : DataFrame → Prop) (ocr_data : OcrData)
    (mode : string) (df : DataFrame) :
  (∀ table df, process_detection mode table = Ok (Some df) → P df) →
  process_table_data ocr_data mode = Some df → P df.
Proof.
  intros HP. unfold process_table_data, process_table_data_run.
  rewrite process_table_data_try_collect.
  destruct (collect_tables mode (default [] (TableDetections ocr_data)) [])
    as [tables|e] eqn:Hcollect; simpl; [|done].
  intros Hhead.
  pose proof (collect_tables_Forall P mode _ HP [] tables (Forall_nil_2 _) Hcollect)
    as Htables.
  destruct tables as [|t tables]; [done|]. injection Hhead as <-.
  by apply Forall_inv in Htables.
Qed.

(** C8: a Table that the enhanced mode returned is left unchanged by
    another pass of the cleanup of lines 99-100. *)
Theorem enhanced_cleanup_idempotent (ocr_data : OcrData) (df : DataFrame) :
  process_table_data ocr_data "enhanced" = Some df → enhanced_cleanup df = df.
Proof.
  apply (process_table_data_Some (λ df, enhanced_cleanup df = df)).
  intros table df' (cells & grid & _ & Hgrid & ->)%process_detection_Some.
  rewrite bool_decide_eq_true_2 by done.
  apply build_grid_dims in Hgrid as (R & C & Hdims).
  apply enhanced_cleanup_twice. by eapply pd_DataFrame_ok.
Qed.

Lemma enhanced_cleanup_idempotent_witness :
  enhanced_cleanup
    {| index := [0]%Z; columns := [LInt 0; LInt 2];
       data := [ [PStr "a"; PStr "b"] ] |}
  = {| index := [0]%Z; columns := [LInt 0; LInt 2];
       data := [ [PStr "a"; PStr "b"] ] |}.
Proof.
  apply (enhanced_cleanup_idempotent
           (response_of
              [ mk_cell 0 0 1 1 "a";
                {| RowTl := Some 0%Z; ColTl := Some 1%Z; RowSpan := Some 2%Z;
                   ColSpan := None; Text := Some PNone |};
                mk_cell 0 2 1 1 "b";
                {| RowTl := Some 1%Z; ColTl := Some 0%Z; RowSpan := None;
                   ColSpan := Some 3%Z; Text := Some PNone |} ])).
  vm_compute. reflexivity.
Defined.

(** ** Column labels *)

Lemma label_position_Some (lbl : label) (cols : list label) (j : nat) :
  label_position lbl cols = Some j → cols !! j = Some lbl.
Proof.
  unfold label_position.
  destruct (list_find (λ l, l = lbl) cols) as [[j' x]|] eqn:Hfind; [|done].
  intros [= <-]. apply list_find_Some in Hfind as (Hj & -> & _). done.
Qed.

Lemma label_position_None (lbl : label) (cols : list label) :
  label_position lbl cols = None ↔ lbl ∉ cols.
Proof.
  unfold label_position. rewrite fmap_None, list_find_None, Forall_forall.
  split.
  - intros Hne Hin. by apply (Hne lbl).
  - intros Hnotin x Hx ->. done.
Qed.

Lemma label_position_NoDup (lbl : label) (cols : list label) (j : nat) :
  NoDup cols → cols !! j = Some lbl → label_position lbl cols = Some j.
Proof.
  intros Hnodup Hj. unfold label_position.
  destruct (list_find (λ l, l = lbl) cols) as [[j' x]|] eqn:Hfind.
  - apply list_find_Some in Hfind as (Hj' & -> & _). simpl. f_equal.
    by eapply NoDup_lookup.
  - apply list_find_None in Hfind.
    by destruct (Forall_lookup_1 _ _ _ _ Hfind Hj).
Qed.

Lemma label_position_elem_of (lbl : label) (cols : list label) :
  lbl ∈ cols → ∃ j, label_position lbl cols = Some j ∧ cols !! j = Some lbl.
Proof.
  intros Hin. destruct (label_position lbl cols) as [j|] eqn:Hpos.
  - exists j. split; [done|]. by apply label_position_Some.
  - by apply label_position_None in Hpos.
Qed.

Lemma unique_labels_elem_of (seen ls : list label) (l : label) :
  l ∈ unique_labels seen ls ↔ l ∈ ls ∧ l ∉ seen.
Proof.
  revert seen. induction ls as [|x ls IH]; intros seen; simpl.
  - split; [by intros ?%elem_of_nil | by intros [?%elem_of_nil _]].
  - destruct (decide (x ∈ seen)) as [Hx|Hx].
    + rewrite IH, elem_of_cons. split; [tauto|].
      intros [[-> | Hl] Hseen]; [done|tauto].
    + rewrite elem_of_cons, IH, !elem_of_cons.
      destruct (decide (l = x)) as [->|Hne]; [tauto|]. tauto.
Qed.

Lemma unique_labels_NoDup (seen ls : list label) : NoDup (unique_labels seen ls).
Proof.
  revert seen. induction ls as [|x ls IH]; intros seen; simpl.
  - apply NoDup_nil_2.
  - destruct (decide (x ∈ seen)); [apply IH|].
    apply NoDup_cons_2; [|apply IH].
    rewrite unique_labels_elem_of, elem_of_cons. tauto.
Qed.

Lemma elem_of_concat {A} (x : A) (ls : list (list A)) :
  x ∈ concat ls ↔ ∃ l, x ∈ l ∧ l ∈ ls.
Proof.
  induction ls as [|l ls IH]; simpl.
  - split; [by intros ?%elem_of_nil | by intros (l & _ & ?%elem_of_nil)].
  - rewrite elem_of_app, IH. split.
    + intros [Hx | (l' & Hx & Hl')]; [exists l | exists l'];
        (split; [done|]); [left | by right].
    + intros (l' & Hx & [-> | Hl']%elem_of_cons); [by left|].
      right. eauto.
Qed.

Lemma union_columns_elem_of (dfs : list DataFrame) (lbl : label) :
  lbl ∈ union_columns dfs ↔ ∃ t, t ∈ dfs ∧ lbl ∈ columns t.
Proof.
  unfold union_columns. rewrite unique_labels_elem_of, elem_of_concat.
  split.
  - intros [(cols & Hlbl & (t & -> & Ht)%list_elem_of_fmap) _]. eauto.
  - intros (t & Ht & Hlbl). split; [|by intros ?%elem_of_nil].
    exists (columns t). split; [done|]. apply list_elem_of_fmap. eauto.
Qed.

(** ** Rows laid out along other columns *)

Lemma reindex_row_length (old_cols new_cols : list label) (row : list pyval) :
  length (reindex_row old_cols new_cols row) = length new_cols.
Proof. unfold reindex_row. by rewrite length_fmap. Qed.

Lemma reindex_row_lookup (old_cols new_cols : list label) (row : list pyval)
    (lbl : label) (j : nat) :
  new_cols !! j = Some lbl →
  reindex_row old_cols new_cols row !! j =
    Some match label_position lbl old_cols with
         | Some j' => default PNaN (row !! j')
         | None => PNaN
         end.
Proof.
  intros Hj. unfold reindex_row. by rewrite list_lookup_fmap, Hj.
Qed.

Lemma reindex_row_id (cols : list label) (row : list pyval) :
  NoDup cols → length row = length cols → reindex_row cols cols row = row.
Proof.
  intros Hnodup Hlen. apply list_eq. intros j.
  destruct (cols !! j) as [lbl|] eqn:Hj.
  - rewrite (reindex_row_lookup cols cols row lbl j Hj).
    rewrite (label_position_NoDup lbl cols j) by done.
    destruct (lookup_lt_is_Some_2 row j) as [v Hv].
    { rewrite Hlen. by eapply lookup_lt_Some. }
    by rewrite Hv.
  - apply lookup_ge_None in Hj.
    rewrite !(proj2 (lookup_ge_None _ _)); [done|lia|].
    rewrite reindex_row_length. lia.
Qed.

(** The entry under [lbl] of a row laid out along [new_cols]: the entry
    the row had under [lbl], or NaN when it had no such column. *)
Lemma reindex_row_at (old_cols new_cols : list label) (row : list pyval) (lbl : label) :
  length row = length old_cols → lbl ∈ new_cols →
  (j ← label_position lbl new_cols; reindex_row old_cols new_cols row !! j)
  = if decide (lbl ∈ old_cols)
    then j' ← label_position lbl old_cols; row !! j'
    else Some PNaN.
Proof.
  intros Hlen (j & -> & Hj)%label_position_elem_of. simpl.
  rewrite (reindex_row_lookup _ _ _ lbl j Hj).
  destruct (decide (lbl ∈ old_cols)) as [Hin|Hnotin].
  - apply label_position_elem_of in Hin as (j' & -> & Hj'). simpl.
    destruct (lookup_lt_is_Some_2 row j') as [v Hv].
    { rewrite Hlen. by eapply lookup_lt_Some. }
    by rewrite Hv.
  - apply label_position_None in Hnotin. by rewrite Hnotin.
Qed.

Lemma lookup_concat_offset {A} (blocks : list (list A)) (k i : nat) (block : list A) :
  blocks !! k = Some block → i < length block →
  concat blocks !! (sum_list (length <$> take k blocks) + i) = block !! i.
Proof.
  revert k. induction blocks as [|b blocks IH]; intros [|k] Hk Hi; try done.
  - injection Hk as ->. simpl. by rewrite lookup_app_l.
  - change ((b ++ concat blocks)
              !! (length b + sum_list (length <$> take k blocks) + i) = block !! i).
    rewrite lookup_app_r by lia.
    replace (length b + sum_list (length <$> take k blocks) + i - length b)
      with (sum_list (length <$> take k blocks) + i) by lia.
    by apply IH.
Qed.

Lemma length_concat_sum {A} (blocks : list (list A)) :
  length (concat blocks) = sum_list (length <$> blocks).
Proof.
  induction blocks as [|b blocks IH]; [done|].
  change (length (b ++ concat blocks) = length b + sum_list (length <$> blocks)).
  rewrite length_app. lia.
Qed.

(** ** pd.concat on frames with distinct column labels *)

Lemma pd_concat_spec (dfs : list DataFrame) :
  dfs ≠ [] → Forall frame_ok dfs → Forall (λ t, NoDup (columns t)) dfs →
  ∃ final, pd_concat dfs = Ok final ∧
    NoDup (columns final) ∧
    (∀ lbl, lbl ∈ columns final ↔ ∃ t, t ∈ dfs ∧ lbl ∈ columns t) ∧
    data final
      = concat ((λ t, reindex_row (columns t) (columns final) <$> data t) <$> dfs).
Proof.
  intros Hne Hok Hnodup. destruct dfs as [|first rest]; [done|].
  unfold pd_concat.
  destruct (forallb (λ df, bool_decide (columns df = columns first)) rest)
    eqn:Hsame.
  - assert (∀ t, t ∈ first :: rest → columns t = columns first) as Hcols.
    { intros t [-> | Ht]%elem_of_cons; [done|].
      rewrite forallb_forall in Hsame. apply list_elem_of_In in Ht.
      specialize (Hsame t Ht). by apply bool_decide_eq_true_1 in Hsame. }
    eexists. split; [done|]. cbn [columns data].
    split; [by apply Forall_inv in Hnodup|]. split.
    + intros lbl. split.
      * intros Hlbl. exists first. split; [left|done].
      * intros (t & Ht & Hlbl). by rewrite <-(Hcols t Ht).
    + f_equal. apply Forall_fmap_ext_1. apply Forall_forall. intros t Ht.
      transitivity (id <$> data t); [by rewrite list_fmap_id|].
      apply Forall_fmap_ext_1.
      destruct (proj1 (Forall_forall _ _) Hok t Ht) as [_ Hrows].
      eapply Forall_impl; [exact Hrows|]. intros row Hrow. simpl in Hrow.
      rewrite <-(Hcols t Ht). symmetry. apply reindex_row_id; [|done].
      by apply (proj1 (Forall_forall _ _) Hnodup t Ht).
  - assert (forallb (λ df, bool_decide (NoDup (columns df))) (first :: rest)
            = true) as ->.
    { apply forallb_forall. intros t Ht%list_elem_of_In.
      apply bool_decide_eq_true_2.
      by apply (proj1 (Forall_forall _ _) Hnodup t Ht). }
    eexists. split; [done|]. cbn [columns data].
    split; [apply unique_labels_NoDup|]. split; [|done].
    apply union_columns_elem_of.
Qed.

(** ** The Tables that reach [all_data] *)

Lemma pd_DataFrame_columns (grid : Grid) :
  NoDup (columns (pd_DataFrame grid)) ∧ source_column ∉ columns (pd_DataFrame grid).
Proof.
  unfold pd_DataFrame, range_index. simpl. split.
  - apply NoDup_fmap_2; [|apply NoDup_seqZ]. by intros x y [= ->].
  - by intros (i & Hi & _)%list_elem_of_fmap.
Qed.

Lemma enhanced_cleanup_columns (df : DataFrame) :
  columns (enhanced_cleanup df) `sublist_of` columns df.
Proof. unfold enhanced_cleanup. simpl. apply select_sublist. Qed.

Lemma process_table_data_frame (ocr_data : OcrData) (mode : string) (df : DataFrame) :
  process_table_data ocr_data mode = Some df →
  frame_ok df ∧ NoDup (columns df) ∧ source_column ∉ columns df.
Proof.
  apply (process_table_data_Some
           (λ df, frame_ok df ∧ NoDup (columns df) ∧ source_column ∉ columns df)).
  intros table df' (cells & grid & _ & Hgrid & ->)%process_detection_Some.
  apply build_grid_dims in Hgrid as (R & C & Hdims).
  pose proof (pd_DataFrame_ok R C grid Hdims) as Hok.
  destruct (pd_DataFrame_columns grid) as [Hnodup Hsrc].
  destruct (bool_decide (mode = "enhanced")); [|done].
  pose proof (enhanced_cleanup_columns (pd_DataFrame grid)) as Hsub.
  split; [by apply enhanced_cleanup_ok|]. split.
  - by eapply sublist_NoDup.
  - intros Hin. apply Hsrc. by eapply elem_of_sublist.
Qed.

Lemma set_column_new (df : DataFrame) (lbl : label) (v : pyval) :
  frame_ok df → NoDup (columns df) → lbl ∉ columns df →
  frame_ok (set_column df lbl v) ∧ NoDup (columns (set_column df lbl v)).
Proof.
  intros [Hlen Hrows] Hnodup Hnew. unfold set_column.
  rewrite (proj2 (label_position_None lbl (columns df))) by done.
  split; [split|]; simpl.
  - by rewrite length_fmap.
  - apply Forall_fmap. eapply Forall_impl; [exact Hrows|].
    intros row Hrow. simpl in *. rewrite !length_app. simpl. lia.
  - apply NoDup_app. split; [done|]. split; [|apply NoDup_singleton].
    intros x Hx ->%list_elem_of_singleton. done.
Qed.

Lemma file_table_ok (mode : string) (file : UploadedFile) (t : DataFrame) :
  file_table mode file = Some t → frame_ok t ∧ NoDup (columns t).
Proof.
  unfold file_table. destruct (content file) as [e|pre e|pre ocr_data]; [done..|].
  destruct (process_table_data ocr_data mode) as [df|] eqn:Hdf; [|done].
  intros [= <-].
  apply process_table_data_frame in Hdf as (Hok & Hnodup & Hsrc).
  by apply set_column_new.
Qed.

Lemma recognize_file_tables (mode : string) (file : UploadedFile)
    (all_data : list DataFrame) (shown : list st_call) :
  (recognize_file mode (all_data, shown) file).1
    = all_data ++ option_list (file_table mode file).
Proof.
  unfold recognize_file, file_table, process_single_image, process_table_data.
  destruct (content file) as [e|pre e|pre ocr_data]; simpl; try by rewrite app_nil_r.
  destruct (process_table_data_run ocr_data mode) as [[df|] msgs]; simpl;
    [done | by rewrite app_nil_r].
Qed.

Lemma recognize_all_tables (mode : string) (files : list UploadedFile) :
  (recognize_all mode files).1 = omap (file_table mode) files.
Proof.
  unfold recognize_all.
  assert (∀ st, (foldl (recognize_file mode) st files).1
                = st.1 ++ omap (file_table mode) files) as Hfold.
  { induction files as [|file files IH]; intros [all_data shown].
    - simpl. by rewrite app_nil_r.
    - cbn [foldl]. rewrite IH, recognize_file_tables. cbn [fst].
      rewrite <-app_assoc. f_equal.
      change (omap (file_table mode) (file :: files))
        with (match file_table mode file with
              | Some t => t :: omap (file_table mode) files
              | None => omap (file_table mode) files
              end).
      by destruct (file_table mode file). }
  by rewrite Hfold.
Qed.

Lemma rows_before_blocks (f : DataFrame → list (list pyval)) (tables : list DataFrame)
    (k : nat) :
  (∀ t, length (f t) = length (data t)) →
  sum_list (length <$> take k (f <$> tables)) = rows_before tables k.
Proof.
  intros Hf. unfold rows_before. rewrite <-fmap_take, <-list_fmap_compose.
  f_equal. apply list_fmap_ext. intros i t _. simpl. apply Hf.
Qed.

(** C3: the click on the button. When no file yields a Table the result
    is null and the last message is "no valid data". Otherwise the
    result is a frame whose columns are, without repetition, the labels
    of the contributing Tables; its rows are the rows of the Tables in the
    order of the input files, the [k]-th Table's rows starting right after
    the rows of the Tables before it; and a row holds under each label the
    value it had in its Table, or NaN when its Table has no such column. *)
Theorem batch_result_is_stable_concat (files : list UploadedFile) (mode : string) :
  let tables := omap (file_table mode) files in
  (tables = [] →
     ∃ shown, run_batch files mode = (None, shown ++ [StErrorNoData])) ∧
  (tables ≠ [] →
     ∃ final,
       run_batch files mode = (Some final, (recognize_all mode files).2) ∧
       NoDup (columns final) ∧
       (∀ lbl, lbl ∈ columns final ↔ ∃ t, t ∈ tables ∧ lbl ∈ columns t) ∧
       length (data final) = rows_before tables (length tables) ∧
       ∀ k t i lbl,
         tables !! k = Some t → i < length (data t) → lbl ∈ columns final →
         frame_at final (rows_before tables k + i) lbl
           = (if decide (lbl ∈ columns t) then frame_at t i lbl else Some PNaN) ∧
         (lbl ∈ columns t → is_Some (frame_at t i lbl))).
Proof.
  intros tables. pose proof (recognize_all_tables mode files) as Hall.
  fold tables in Hall. unfold run_batch.
  destruct (recognize_all mode files) as [all_data shown]. simpl in Hall.
  subst all_data. split.
  - intros ->. by exists shown.
  - intros Hne.
    assert (Forall (λ t, frame_ok t ∧ NoDup (columns t)) tables) as Htables.
    { apply Forall_forall. intros t (file & _ & Ht)%list_elem_of_omap.
      by eapply file_table_ok. }
    destruct (pd_concat_spec tables Hne) as (final & Hconcat & Hnodup & Hcols & Hdata).
    { eapply Forall_impl; [exact Htables|]. by intros t [? _]. }
    { eapply Forall_impl; [exact Htables|]. by intros t [_ ?]. }
    exists final. split.
    { destruct tables as [|t0 rest]; [done|]. by rewrite Hconcat. }
    split; [done|]. split; [done|].
    set (block := λ t : DataFrame,
           reindex_row (columns t) (columns final) <$> data t) in Hdata.
    assert (∀ t, length (block t) = length (data t)) as Hblock.
    { intros t. unfold block. by rewrite length_fmap. }
    split.
    { rewrite Hdata, length_concat_sum.
      rewrite <-(rows_before_blocks block tables (length tables)) by done.
      by rewrite take_ge by (by rewrite length_fmap). }
    intros k t i lbl Hk Hi Hlbl.
    destruct (Forall_lookup_1 _ _ _ _ Htables Hk) as [[_ Hrows] _].
    destruct (lookup_lt_is_Some_2 (data t) i Hi) as [row Hrow].
    pose proof (Forall_lookup_1 _ _ _ _ Hrows Hrow) as Hrowlen. simpl in Hrowlen.
    assert (frame_at t i lbl = (j ← label_position lbl (columns t); row !! j))
      as Hat by (unfold frame_at; by rewrite Hrow).
    split.
    + unfold frame_at at 1. rewrite Hdata.
      rewrite <-(rows_before_blocks block tables k) by done.
      rewrite (lookup_concat_offset _ k i (block t)).
      * unfold block. rewrite list_lookup_fmap, Hrow. simpl.
        rewrite reindex_row_at by done. by rewrite Hat.
      * by rewrite list_lookup_fmap, Hk.
      * by rewrite Hblock.
    + intros (j & Hj & Hcolj)%label_position_elem_of.
      rewrite Hat, Hj. simpl. apply lookup_lt_is_Some_2.
      rewrite Hrowlen. by eapply lookup_lt_Some.
Qed.

Lemma batch_result_is_stable_concat_witness :
  ∃ final,
    run_batch example_batch "raw"
      = (Some final, (recognize_all "raw" example_batch).2) ∧
    NoDup (columns final) ∧
    length (data final)
      = rows_before (omap (file_table "raw") example_batch)
          (length (omap (file_table "raw") example_batch)) ∧
    frame_at final 2 (LInt 3) = Some (PStr "y") ∧
    frame_at final 0 (LInt 3) = Some PNaN.
Proof.
  destruct (proj2 (batch_result_is_stable_concat example_batch "raw"))
    as (final & Hrun & Hnodup & Hcols & Hlen & Hrows).
  { vm_compute. discriminate. }
  exists final. split; [exact Hrun|]. split; [exact Hnodup|].
  split; [exact Hlen|].
  vm_compute in Hrun. injection Hrun as <-.
  split; vm_compute; reflexivity.
Defined.

(** ** The enhanced mode on grids of strings *)

Lemma grid_setitem_notna grid r c t grid' :
  notna t = true → Forall (Forall (λ v, notna v = true)) grid →
  grid_setitem grid r c t = Ok grid' →
  Forall (Forall (λ v, notna v = true)) grid'.
Proof.
  intros Ht Hgrid. unfold grid_setitem. intros (ri & Hri & Hset)%bind_Ok.
  destruct (grid !! ri) as [row|] eqn:Hrow; [|done].
  apply bind_Ok in Hset as (ci & Hci & [= <-]).
  apply Forall_insert; [done|]. apply Forall_insert; [|done].
  by eapply (Forall_lookup_1 _ _ _ _ Hgrid).
Qed.

Lemma build_grid_notna (cells : list Cell) (grid : Grid) :
  Forall (λ cell, notna (text cell) = true) cells →
  build_grid cells = Ok grid → Forall (Forall (λ v, notna v = true)) grid.
Proof.
  intros Htexts. unfold build_grid.
  intros (row_ends & _ & (max_row & _ & (col_ends & _ &
            (max_col & _ & Hfill)%bind_Ok)%bind_Ok)%bind_Ok)%bind_Ok.
  revert Hfill. unfold fill_grid. apply for_each_invariant_in.
  - intros g cell g' Hcell Hg. unfold fill_cell.
    pose proof (proj1 (Forall_forall _ _) Htexts cell Hcell) as Htext.
    apply for_each_invariant; [|done].
    intros g1 r g1' Hg1. apply for_each_invariant; [|done].
    intros g2 c g2' Hg2. by apply grid_setitem_notna.
  - unfold new_grid. apply Forall_replicate. by apply Forall_replicate.
Qed.

(** On Cells of the data model whose texts are strings the cleanup of
    lines 99-100 finds nothing to remove: both modes give the same Table. *)
Lemma enhanced_is_raw_on_strings (cells : list Cell) :
  cells ≠ [] → Forall well_formed cells →
  Forall (λ cell, notna (text cell) = true) cells →
  process_table_data (response_of cells) "enhanced"
    = process_table_data (response_of cells) "raw".
Proof.
  intros Hne Hwf Htexts.
  assert (Forall explicit_origin cells) as Horigin.
  { eapply Forall_impl; [exact Hwf|]. by intros cell [? _]. }
  destruct (build_grid_spec cells Hne Horigin)
    as (mr & mc & grid & _ & Hcmax & _ & _ & _ & Hbuild & [Hlen Hrows] & _).
  assert (1 ≤ mc)%Z as Hmc.
  { destruct Hcmax as [(cc & Hcc & Hcc_eq) _].
    destruct (proj1 (Forall_forall _ _) Hwf cc Hcc)
      as [(r1 & c1 & Hr1 & Hc1 & Hr1pos & Hc1pos) [_ Hcs]].
    unfold col_end, col_start in Hcc_eq. rewrite Hc1 in Hcc_eq. simpl in *. lia. }
  pose proof (build_grid_notna cells grid Htexts Hbuild) as Hnotna.
  unfold process_table_data, process_table_data_run.
  rewrite !process_table_data_try_single, Hbuild by done.
  rewrite bool_decide_eq_true_2, bool_decide_eq_false_2 by done. simpl.
  f_equal.
  pose proof (pd_DataFrame_ok _ _ grid (conj Hlen Hrows)) as Hok.
  unfold enhanced_cleanup.
  assert (dropna_rows (pd_DataFrame grid) = pd_DataFrame grid) as ->.
  { apply dropna_rows_id; [done|]. simpl. apply Forall_forall.
    intros row Hrow.
    pose proof (proj1 (Forall_forall _ _) Hrows row Hrow) as Hrowlen.
    pose proof (proj1 (Forall_forall _ _) Hnotna row Hrow) as Hrownotna.
    simpl in *. destruct row as [|v row]; [simpl in Hrowlen; lia|].
    simpl. by rewrite (Forall_inv Hrownotna). }
  assert (dropna_cols (pd_DataFrame grid) = pd_DataFrame grid) as ->.
  { apply dropna_cols_id; [done|].
    destruct Hok as [_ Hrows']. simpl in Hrows'.
    destruct grid as [|row grid]; [simpl; apply Forall_nil_2|].
    revert Hrows'. generalize (length (columns (pd_DataFrame (row :: grid)))).
    intros n Hrows'. simpl data. rewrite any_axis0_cons.
    apply Forall_forall. intros b Hb.
    apply list_elem_of_lookup in Hb as (j & Hb).
    apply lookup_zip_with_Some in Hb as (a & b' & -> & Ha & _).
    apply list_lookup_fmap_Some in Ha as (v & -> & Hv).
    apply Forall_inv in Hnotna.
    by rewrite (Forall_lookup_1 _ _ _ _ Hnotna Hv). }
  unfold reset_index, pd_DataFrame, range_index. simpl.
  by rewrite length_seqZ, Nat2Z.id.
Qed.

(** * Further properties of the reconstruction *)

Lemma new_grid_at (max_row max_col r c : Z) :
  grid_at (new_grid max_row max_col) r c =
    if decide ((0 ≤ r < max_row)%Z ∧ (0 ≤ c < max_col)%Z)
    then Some (PStr "") else None.
Proof.
  unfold grid_at, new_grid.
  destruct (decide (0 ≤ r ∧ 0 ≤ c)%Z) as [Hpos|Hneg];
    [|by rewrite decide_False by lia].
  destruct (decide ((0 ≤ r < max_row)%Z ∧ (0 ≤ c < max_col)%Z)) as [Hin|Hout].
  - rewrite lookup_replicate_2 by lia. simpl.
    by rewrite lookup_replicate_2 by lia.
  - destruct (decide (r < max_row)%Z) as [Hr|Hr].
    + rewrite lookup_replicate_2 by lia. simpl.
      apply lookup_replicate_None. lia.
    + rewrite (proj1 (lookup_replicate_None _ _ _)) by lia. done.
Qed.

(** The raw grid, position by position: inside the [max_row] by [max_col]
    rectangle a position holds the text of the last cell covering it, or
    the empty string when no cell covers it; there is nothing outside. *)
Theorem raw_grid_content (cells : list Cell) (max_row max_col : Z) :
  cells ≠ [] → Forall explicit_origin cells →
  is_max row_end cells max_row → is_max col_end cells max_col →
  ∃ grid,
    build_grid cells = Ok grid ∧
    process_table_data (response_of cells) "raw" = Some (pd_DataFrame grid) ∧
    ∀ r c, grid_at grid r c =
      if decide ((0 ≤ r < max_row)%Z ∧ (0 ≤ c < max_col)%Z)
      then Some match last (filter (λ cell, covers cell r c) cells) with
                | Some cell => text cell
                | None => PStr ""
                end
      else None.
Proof.
  intros Hne Horigin Hrmax Hcmax.
  destruct (build_grid_spec cells Hne Horigin)
    as (mr & mc & grid & Hrmax' & Hcmax' & _ & _ & _ & Hbuild & _ & Hat).
  assert (mr = max_row) as -> by (by eapply is_max_unique).
  assert (mc = max_col) as -> by (by eapply is_max_unique).
  exists grid. split; [done|]. split; [by apply process_table_data_raw|].
  intros r c. rewrite Hat, new_grid_at.
  destruct (last (filter (λ cell, covers cell r c) cells)) as [cell|] eqn:Hlast;
    [|by case_decide].
  apply last_Some in Hlast as [l' Hl'].
  assert (cell ∈ filter (λ cell, covers cell r c) cells) as Hcell.
  { rewrite Hl'. apply elem_of_app. right. left. }
  apply list_elem_of_filter in Hcell as [[Hr Hc] Hcell].
  destruct (proj1 (Forall_forall _ _) Horigin cell Hcell)
    as (r0 & c0 & Hr0 & Hc0 & Hr0pos & Hc0pos).
  pose proof (proj2 Hrmax cell Hcell) as Hrow.
  pose proof (proj2 Hcmax cell Hcell) as Hcol.
  unfold row_end, row_start in *. unfold col_end, col_start in *.
  rewrite Hr0 in Hr, Hrow. rewrite Hc0 in Hc, Hcol. simpl in *.
  rewrite decide_True by lia. done.
Qed.

Lemma raw_grid_content_witness :
  ∃ grid,
    build_grid gap_col_cells = Ok grid ∧
    process_table_data (response_of gap_col_cells) "raw"
      = Some (pd_DataFrame grid) ∧
    ∀ r c, grid_at grid r c =
      if decide ((0 ≤ r < 1)%Z ∧ (0 ≤ c < 3)%Z)
      then Some match last (filter (λ cell, covers cell r c) gap_col_cells) with
                | Some cell => text cell
                | None => PStr ""
                end
      else None.
Proof.
  apply (raw_grid_content gap_col_cells 1 3).
  - discriminate.
  - unfold gap_col_cells. solve_origin.
  - split.
    + exists (mk_cell 0 0 1 1 "a"). split; [left|reflexivity].
    + apply Forall_forall. unfold gap_col_cells.
      repeat first [apply Forall_nil_2 | apply Forall_cons_2];
        unfold row_end, row_start, row_span; simpl; lia.
  - split.
    + exists (mk_cell 0 2 1 1 "b"). split; [right; left|reflexivity].
    + apply Forall_forall. unfold gap_col_cells.
      repeat first [apply Forall_nil_2 | apply Forall_cons_2];
        unfold col_end, col_start, col_span; simpl; lia.
Defined.

(** ** Which exception a defective cell raises *)

Lemma res_bind_Ok {A B} (a : A) (f : A → res B) : Ok a ≫= f = f a.
Proof. done. Qed.

Lemma gen_eval_raises_same {A B} (f : A → res B) (xs : list A) (x : A) (e : exn) :
  (∀ y e', f y = Raised e' → e' = e) → x ∈ xs → f x = Raised e →
  gen_eval f xs = Raised e.
Proof.
  intros Hsame. induction xs as [|y xs IH]; intros Hin Hf;
    [by apply elem_of_nil in Hin|].
  simpl. destruct (f y) as [b|e1] eqn:Hy; simpl.
  - apply elem_of_cons in Hin as [<- | Hin]; [congruence|].
    by rewrite IH.
  - by rewrite (Hsame y e1 Hy).
Qed.

Lemma gen_eval_Ok_length {A B} (f : A → res B) (xs : list A) (ys : list B) :
  gen_eval f xs = Ok ys → length ys = length xs.
Proof.
  revert ys. induction xs as [|x xs IH]; intros ys; simpl.
  - by intros [= <-].
  - intros (y & _ & (ys' & Hys & [= <-])%bind_Ok)%bind_Ok.
    simpl. f_equal. by apply IH.
Qed.

Lemma process_table_data_run_single (cells : list Cell) (mode : string) (e : exn) :
  cells ≠ [] → build_grid cells = Raised e →
  process_table_data_run (response_of cells) mode = (None, [StErrorTable e]).
Proof.
  intros Hne Hbuild. unfold process_table_data_run.
  by rewrite process_table_data_try_single, Hbuild.
Qed.

(** On cells whose fields, where present, are integers: a cell without
    [RowTl] makes line 74 raise [KeyError('RowTl')], also when other cells
    lack [ColTl]; the function reports it and returns [None]. *)
Theorem missing_RowTl_is_reported (cells : list Cell) (cell : Cell) (mode : string) :
  cell ∈ cells → RowTl cell = None →
  build_grid cells = Raised (KeyError "RowTl") ∧
  process_table_data_run (response_of cells) mode
    = (None, [StErrorTable (KeyError "RowTl")]).
Proof.
  intros Hcell Hrow.
  assert (build_grid cells = Raised (KeyError "RowTl")) as Hbuild.
  { unfold build_grid.
    rewrite (gen_eval_raises_same row_extent cells cell (KeyError "RowTl"));
      [done| |done|].
    - intros y e'. unfold row_extent. destruct (RowTl y); simpl; congruence.
    - unfold row_extent. by rewrite Hrow. }
  split; [done|]. apply process_table_data_run_single; [|done].
  intros ->. by apply elem_of_nil in Hcell.
Qed.

Lemma missing_RowTl_is_reported_witness :
  build_grid [ mk_cell 0 0 1 1 "a";
               {| RowTl := None; ColTl := None; RowSpan := None;
                  ColSpan := None; Text := None |} ]
    = Raised (KeyError "RowTl") ∧
  process_table_data_run
    (response_of [ mk_cell 0 0 1 1 "a";
                   {| RowTl := None; ColTl := None; RowSpan := None;
                      ColSpan := None; Text := None |} ]) "enhanced"
    = (None, [StErrorTable (KeyError "RowTl")]).
Proof.
  eapply (missing_RowTl_is_reported _ _ "enhanced").
  - right. left.
  - reflexivity.
Defined.

(** On cells whose fields, where present, are integers: when every cell
    has its [RowTl] and one lacks [ColTl], line 75 raises
    [KeyError('ColTl')]; the function reports it and returns [None]. *)
Theorem missing_ColTl_is_reported (cells : list Cell) (cell : Cell) (mode : string) :
  Forall (λ c, is_Some (RowTl c)) cells → cell ∈ cells → ColTl cell = None →
  build_grid cells = Raised (KeyError "ColTl") ∧
  process_table_data_run (response_of cells) mode
    = (None, [StErrorTable (KeyError "ColTl")]).
Proof.
  intros Hrows Hcell Hcol.
  assert (cells ≠ []) as Hne by (intros ->; by apply elem_of_nil in Hcell).
  assert (build_grid cells = Raised (KeyError "ColTl")) as Hbuild.
  { unfold build_grid.
    rewrite (gen_eval_fmap row_extent row_end).
    - destruct (py_max_fmap row_end cells Hne) as (max_row & Hmax & _).
      rewrite res_bind_Ok, Hmax, res_bind_Ok.
      rewrite (gen_eval_raises_same col_extent cells cell (KeyError "ColTl"));
        [done| |done|].
      + intros y e'. unfold col_extent. destruct (ColTl y); simpl; congruence.
      + unfold col_extent. by rewrite Hcol.
    - intros c Hc. destruct (proj1 (Forall_forall _ _) Hrows c Hc) as [r Hr].
      unfold row_extent, row_end, row_start. by rewrite Hr. }
  split; [done|]. by apply process_table_data_run_single.
Qed.

Lemma missing_ColTl_is_reported_witness :
  build_grid [ mk_cell 0 0 1 1 "a";
               {| RowTl := Some 1%Z; ColTl := None; RowSpan := None;
                  ColSpan := None; Text := None |} ]
    = Raised (KeyError "ColTl") ∧
  process_table_data_run
    (response_of [ mk_cell 0 0 1 1 "a";
                   {| RowTl := Some 1%Z; ColTl := None; RowSpan := None;
                      ColSpan := None; Text := None |} ]) "raw"
    = (None, [StErrorTable (KeyError "ColTl")]).
Proof.
  eapply (missing_ColTl_is_reported _ _ "raw").
  - repeat first [apply Forall_nil_2 | apply Forall_cons_2]; by eexists.
  - right. left.
  - reflexivity.
Defined.

(** ** Several detections in one response *)

Lemma collect_tables_acc (mode : string) (dets : list TableDetection)
    (acc : list DataFrame) :
  collect_tables mode dets acc =
    tables ← collect_tables mode dets []; Ok (acc ++ tables).
Proof.
  revert acc. induction dets as [|table dets IH]; intros acc.
  - simpl. by rewrite app_nil_r.
  - cbn [collect_tables].
    destruct (process_detection mode table) as [r|e]; [|done].
    rewrite !res_bind_Ok. rewrite (IH (acc ++ option_list r)).
    rewrite (IH ([] ++ option_list r)).
    destruct (collect_tables mode dets []) as [tables|e]; [|done].
    rewrite !res_bind_Ok. by rewrite <-app_assoc.
Qed.

(** The Table returned is that of the first detection with cells; the
    detections after it are processed and, unless one of them raises,
    thrown away. *)
Theorem later_detections_are_discarded (mode : string)
    (skipped rest : list TableDetection) (table : TableDetection)
    (df : DataFrame) (others : list DataFrame) :
  Forall no_cells skipped →
  process_detection mode table = Ok (Some df) →
  collect_tables mode rest [] = Ok others →
  process_table_data_run
    {| TableDetections := Some (skipped ++ table :: rest) |} mode = (Some df, []).
Proof.
  intros Hskipped Htable Hrest. unfold process_table_data_run.
  rewrite process_table_data_try_collect. simpl.
  rewrite collect_tables_skip by done. cbn [collect_tables].
  rewrite Htable, res_bind_Ok, collect_tables_acc, Hrest. done.
Qed.

Lemma later_detections_are_discarded_witness :
  process_table_data_run
    {| TableDetections :=
         Some ([ {| Cells := None |} ] ++ {| Cells := Some gap_col_cells |}
               :: [ {| Cells := Some example_cells |} ]) |} "raw"
  = (Some {| index := [0]%Z; columns := [LInt 0; LInt 1; LInt 2];
             data := [ [PStr "a"; PStr ""; PStr "b"] ] |}, []).
Proof.
  eapply (later_detections_are_discarded "raw").
  - apply Forall_cons_2; [by left|apply Forall_nil_2].
  - vm_compute. reflexivity.
  - vm_compute. reflexivity.
Defined.

(** ** Modes other than "enhanced" *)

Lemma process_detection_other_mode (mode : string) (table : TableDetection) :
  mode ≠ "enhanced" → process_detection mode table = process_detection "raw" table.
Proof.
  intros Hmode. unfold process_detection.
  by rewrite !bool_decide_eq_false_2 by done.
Qed.

Lemma process_table_data_run_other_mode (ocr_data : OcrData) (mode : string) :
  mode ≠ "enhanced" →
  process_table_data_run ocr_data mode = process_table_data_run ocr_data "raw".
Proof.
  intros Hmode. unfold process_table_data_run.
  rewrite !process_table_data_try_collect.
  assert (∀ dets acc, collect_tables mode dets acc = collect_tables "raw" dets acc)
    as Hcollect.
  { induction dets as [|table dets IH]; intros acc; [done|].
    cbn [collect_tables]. rewrite process_detection_other_mode by done.
    destruct (process_detection "raw" table); [|done].
    rewrite !res_bind_Ok. apply IH. }
  by rewrite Hcollect.
Qed.

(** Only the string "enhanced" switches the cleanup on: under any other
    processing mode the function does what it does in raw mode. *)
Theorem other_modes_are_raw (ocr_data : OcrData) (mode : string) :
  mode ≠ "enhanced" →
  process_table_data ocr_data mode = process_table_data ocr_data "raw" ∧
  process_table_data_run ocr_data mode = process_table_data_run ocr_data "raw".
Proof.
  intros Hmode. unfold process_table_data.
  by rewrite process_table_data_run_other_mode.
Qed.

Lemma other_modes_are_raw_witness :
  process_table_data (response_of example_cells) "Enhanced"
    = process_table_data (response_of example_cells) "raw" ∧
  process_table_data_run (response_of example_cells) "Enhanced"
    = process_table_data_run (response_of example_cells) "raw".
Proof. apply (other_modes_are_raw _ "Enhanced"). discriminate. Defined.

(** ** The shape of every returned Table *)

Lemma enhanced_cleanup_index (df : DataFrame) :
  frame_ok df →
  index (enhanced_cleanup df) = range_index (length (data (enhanced_cleanup df))).
Proof.
  intros [Hlen _]. unfold enhanced_cleanup, reset_index. simpl.
  f_equal. rewrite length_fmap. by apply select_length_eq.
Qed.

(** Whatever the response and the mode, a returned Table is rectangular,
    its rows are labelled 0, 1, 2, ... and its columns carry distinct
    integer labels taken in increasing order from 0, 1, 2, ...; the
    provenance label is not among them. *)
Theorem returned_table_shape (ocr_data : OcrData) (mode : string) (df : DataFrame) :
  process_table_data ocr_data mode = Some df →
  index df = range_index (length (data df)) ∧
  Forall (λ row, length row = length (columns df)) (data df) ∧
  NoDup (columns df) ∧
  (source_column ∉ columns df) ∧
  ∃ width, sublist (columns df) (LInt <$> range_index width).
Proof.
  apply (process_table_data_Some
    (λ df, index df = range_index (length (data df)) ∧
           Forall (λ row, length row = length (columns df)) (data df) ∧
           NoDup (columns df) ∧ (source_column ∉ columns df) ∧
           ∃ width, sublist (columns df) (LInt <$> range_index width))).
  intros table df' (cells & grid & _ & Hgrid & ->)%process_detection_Some.
  apply build_grid_dims in Hgrid as (R & C & Hdims).
  pose proof (pd_DataFrame_ok R C grid Hdims) as Hok.
  destruct (pd_DataFrame_columns grid) as [Hnodup Hsrc].
  destruct (bool_decide (mode = "enhanced")).
  - pose proof (enhanced_cleanup_columns (pd_DataFrame grid)) as Hsub.
    pose proof (enhanced_cleanup_ok _ Hok) as [_ Hrows].
    split; [by apply enhanced_cleanup_index|]. split; [done|].
    split; [by eapply sublist_NoDup|]. split.
    + intros Hin. apply Hsrc. by eapply elem_of_sublist.
    + eexists. exact Hsub.
  - destruct Hok as [_ Hrows]. split; [done|]. split; [done|].
    split; [done|]. split; [done|].
    exists (length (default [] (head grid))). done.
Qed.

Lemma returned_table_shape_witness :
  let df := {| index := [0; 1]%Z; columns := [LInt 0; LInt 1; LInt 2];
               data := [ [PStr "Name"; PStr "Name"; PStr "Age"];
                         [PStr "Ann"; PStr "30"; PStr ""] ] |} in
  index df = range_index (length (data df)) ∧
  Forall (λ row, length row = length (columns df)) (data df) ∧
  NoDup (columns df) ∧
  (source_column ∉ columns df) ∧
  ∃ width, sublist (columns df) (LInt <$> range_index width).
Proof.
  apply (returned_table_shape (response_of example_cells) "raw").
  vm_compute. reflexivity.
Defined.

(** ** What the enhanced mode leaves *)

Lemma any_axis0_lookup_true (n : nat) (rows : list (list pyval)) (j : nat) :
  any_axis0 n rows !! j = Some true →
  ∃ row v, row ∈ rows ∧ row !! j = Some v ∧ notna v = true.
Proof.
  induction rows as [|row rows IH].
  - simpl. by intros [[=] _]%lookup_replicate_1.
  - rewrite any_axis0_cons.
    intros (a & b & Hab & Ha & Hb)%lookup_zip_with_Some.
    symmetry in Hab. apply orb_true_iff in Hab as [-> | ->].
    + apply list_lookup_fmap_Some in Ha as (v & Hv & Hrow).
      exists row, v. split; [left|done].
    + destruct (IH Hb) as (row' & v & Hrow' & Hv & Hnotna).
      exists row', v. split; [by right|done].
Qed.

Lemma enhanced_cleanup_kept (df : DataFrame) :
  frame_ok df →
  Forall (λ row, existsb notna row = true) (data (enhanced_cleanup df)) ∧
  Forall (λ b, b = true)
    (any_axis0 (length (columns (enhanced_cleanup df))) (data (enhanced_cleanup df))).
Proof.
  intros Hok.
  pose proof (dropna_rows_ok df Hok) as [Hlen1 Hrows1].
  set (df1 := dropna_rows df) in *.
  set (mask := any_axis0 (length (columns df1)) (data df1)).
  assert (Forall (λ row, existsb notna row = true) (data df1)) as Hany1.
  { unfold df1, dropna_rows, any_axis1. simpl. apply select_kept. }
  assert (data (enhanced_cleanup df) = select mask <$> data df1) as -> by done.
  assert (columns (enhanced_cleanup df) = select mask (columns df1)) as -> by done.
  split.
  - apply Forall_fmap. apply Forall_forall. intros row Hrow. simpl.
    rewrite existsb_select.
    + by apply (proj1 (Forall_forall _ _) Hany1).
    + by apply any_axis0_covers.
  - rewrite (any_axis0_select mask (length (columns df1))) by done.
    apply select_self.
Qed.

(** In a Table returned in enhanced mode every row holds a value that is
    not missing, and so does every column. *)
Theorem enhanced_table_has_no_missing_line (ocr_data : OcrData) (df : DataFrame) :
  process_table_data ocr_data "enhanced" = Some df →
  Forall (λ row, ∃ v, v ∈ row ∧ notna v = true) (data df) ∧
  ∀ j, j < length (columns df) →
    ∃ row v, row ∈ data df ∧ row !! j = Some v ∧ notna v = true.
Proof.
  apply (process_table_data_Some
    (λ df, Forall (λ row, ∃ v, v ∈ row ∧ notna v = true) (data df) ∧
           ∀ j, j < length (columns df) →
             ∃ row v, row ∈ data df ∧ row !! j = Some v ∧ notna v = true)).
  intros table df' (cells & grid & _ & Hgrid & ->)%process_detection_Some.
  rewrite bool_decide_eq_true_2 by done.
  apply build_grid_dims in Hgrid as (R & C & Hdims).
  pose proof (pd_DataFrame_ok R C grid Hdims) as Hok.
  destruct (enhanced_cleanup_kept _ Hok) as [Hrows Hcols].
  pose proof (enhanced_cleanup_ok _ Hok) as [_ Hrect].
  split.
  - eapply Forall_impl; [exact Hrows|]. intros row Hrow. simpl in Hrow.
    apply existsb_exists in Hrow as (v & Hv%list_elem_of_In & Hnotna). eauto.
  - intros j Hj. apply any_axis0_lookup_true with
      (n := length (columns (enhanced_cleanup (pd_DataFrame grid)))).
    pose proof (any_axis0_length _ _ Hrect) as Hlen.
    destruct (lookup_lt_is_Some_2
      (any_axis0 (length (columns (enhanced_cleanup (pd_DataFrame grid))))
         (data (enhanced_cleanup (pd_DataFrame grid)))) j) as [b Hb]; [lia|].
    by rewrite Hb, (Forall_lookup_1 _ _ _ _ Hcols Hb).
Qed.

Lemma enhanced_table_has_no_missing_line_witness :
  let df := {| index := [0]%Z; columns := [LInt 0; LInt 2];
               data := [ [PStr "a"; PStr "b"] ] |} in
  Forall (λ row, ∃ v, v ∈ row ∧ notna v = true) (data df) ∧
  ∀ j, j < length (columns df) →
    ∃ row v, row ∈ data df ∧ row !! j = Some v ∧ notna v = true.
Proof.
  apply (enhanced_table_has_no_missing_line
           (response_of
              [ mk_cell 0 0 1 1 "a";
                {| RowTl := Some 0%Z; ColTl := Some 1%Z; RowSpan := Some 2%Z;
                   ColSpan := None; Text := Some PNone |};
                mk_cell 0 2 1 1 "b";
                {| RowTl := Some 1%Z; ColTl := Some 0%Z; RowSpan := None;
                   ColSpan := Some 3%Z; Text := Some PNone |} ])).
  vm_compute. reflexivity.
Defined.

Lemma enhanced_is_raw_on_strings_witness :
  process_table_data (response_of gap_row_cells) "enhanced"
    = process_table_data (response_of gap_row_cells) "raw".
Proof.
  apply (enhanced_is_raw_on_strings gap_row_cells).
  - discriminate.
  - unfold gap_row_cells. solve_well_formed.
  - unfold gap_row_cells.
    repeat first [apply Forall_nil_2 | apply Forall_cons_2]; reflexivity.
Defined.

(** ** Cells that cover nothing *)

Lemma for_each_unchanged {A S} (body : S → A → res S) (xs : list A) (s : S) :
  (∀ x, x ∈ xs → body s x = Ok s) → for_each body xs s = Ok s.
Proof.
  induction xs as [|x xs IH]; intros Hbody; [done|].
  cbn [for_each]. rewrite Hbody by left. rewrite res_bind_Ok.
  apply IH. intros y Hy. apply Hbody. by right.
Qed.

(** A cell whose row span or column span is zero or negative writes
    nothing: the fill loop leaves the grid as it found it. *)
Theorem nonpositive_span_writes_nothing (max_row max_col : Z) (grid : Grid)
    (cell : Cell) :
  (row_span cell ≤ 0)%Z ∨ (col_span cell ≤ 0)%Z →
  fill_cell max_row max_col grid cell = Ok grid.
Proof.
  intros Hspan. unfold fill_cell. apply for_each_unchanged. intros r Hr.
  destruct Hspan as [Hrow | Hcol].
  - unfold row_range in Hr. apply elem_of_py_range in Hr. lia.
  - assert (col_range max_col cell = []) as ->; [|done].
    unfold col_range, py_range. apply seqZ_nil. lia.
Qed.

Lemma nonpositive_span_writes_nothing_witness :
  fill_cell 1 1 [ [PStr "a"] ] (mk_cell 0 0 0 1 "b") = Ok [ [PStr "a"] ].
Proof.
  apply (nonpositive_span_writes_nothing 1 1 [ [PStr "a"] ] (mk_cell 0 0 0 1 "b")).
  left. unfold row_span. simpl. lia.
Defined.

(** * Further properties of the batch *)

Lemma run_batch_frame (files : list UploadedFile) (mode : string) :
  (run_batch files mode).1 =
    match omap (file_table mode) files with
    | [] => None
    | t :: tables =>
        match pd_concat (t :: tables) with
        | Ok final => Some final
        | Raised _ => None
        end
    end.
Proof.
  pose proof (recognize_all_tables mode files) as Hall. unfold run_batch.
  destruct (recognize_all mode files) as [all_data shown]. simpl in Hall.
  rewrite <-Hall. destruct all_data as [|t tables]; [done|].
  by destruct (pd_concat (t :: tables)).
Qed.

Lemma file_table_failed (mode : string) (file : UploadedFile)
    (pre : option exn) (e : exn) :
  content file = Undecodable e ∨ content file = Unrecognized pre e →
  file_table mode file = None.
Proof. unfold file_table. by intros [-> | ->]. Qed.

(** A file that cannot be opened, or whose recognition fails, leaves the
    accumulated Tables and the merged frame as they are without it. *)
Theorem failed_file_is_isolated (mode : string) (before after : list UploadedFile)
    (bad : UploadedFile) (pre : option exn) (e : exn) :
  content bad = Undecodable e ∨ content bad = Unrecognized pre e →
  (recognize_all mode (before ++ bad :: after)).1
    = (recognize_all mode (before ++ after)).1 ∧
  (run_batch (before ++ bad :: after) mode).1
    = (run_batch (before ++ after) mode).1.
Proof.
  intros Hbad. apply (file_table_failed mode) in Hbad.
  assert (omap (file_table mode) (before ++ bad :: after)
          = omap (file_table mode) (before ++ after)) as Htables.
  { rewrite !omap_app. f_equal.
    change (omap (file_table mode) (bad :: after))
      with (match file_table mode bad with
            | Some t => t :: omap (file_table mode) after
            | None => omap (file_table mode) after
            end).
    by rewrite Hbad. }
  split.
  - by rewrite !recognize_all_tables.
  - by rewrite !run_batch_frame, Htables.
Qed.

Lemma failed_file_is_isolated_witness :
  (recognize_all "raw"
     ([ {| name := "a.png"; content := Recognized None (response_of example_cells) |} ]
      ++ {| name := "b.png"; content := Undecodable IndexError |}
      :: [ {| name := "c.png"; content := Recognized None (response_of gap_col_cells) |} ])).1
  = (recognize_all "raw"
       ([ {| name := "a.png"; content := Recognized None (response_of example_cells) |} ]
        ++ [ {| name := "c.png"; content := Recognized None (response_of gap_col_cells) |} ])).1 ∧
  (run_batch
     ([ {| name := "a.png"; content := Recognized None (response_of example_cells) |} ]
      ++ {| name := "b.png"; content := Undecodable IndexError |}
      :: [ {| name := "c.png"; content := Recognized None (response_of gap_col_cells) |} ])
     "raw").1
  = (run_batch
       ([ {| name := "a.png"; content := Recognized None (response_of example_cells) |} ]
        ++ [ {| name := "c.png"; content := Recognized None (response_of gap_col_cells) |} ])
       "raw").1.
Proof.
  apply (failed_file_is_isolated "raw" _ _
           {| name := "b.png"; content := Undecodable IndexError |} None IndexError).
  by left.
Defined.

(** ** The provenance column *)

Lemma set_column_index (df : DataFrame) (lbl : label) (v : pyval) :
  index (set_column df lbl v) = index df.
Proof. unfold set_column. by destruct (label_position lbl (columns df)). Qed.

Lemma file_table_source (mode : string) (file : UploadedFile) (t : DataFrame) :
  file_table mode file = Some t →
  source_column ∈ columns t ∧
  Forall (λ row, row_at (columns t) row source_column = Some (PStr (name file)))
    (data t).
Proof.
  unfold file_table. destruct (content file) as [e|pre e|pre ocr_data]; [done..|].
  destruct (process_table_data ocr_data mode) as [df|] eqn:Hdf; [|done].
  intros [= <-].
  apply process_table_data_frame in Hdf as ([_ Hrows] & Hnodup & Hsrc).
  unfold set_column.
  rewrite (proj2 (label_position_None source_column (columns df))) by done.
  cbn [columns data]. split; [apply elem_of_app; right; left|].
  assert (label_position source_column (columns df ++ [source_column])
          = Some (length (columns df))) as Hpos.
  { apply label_position_NoDup; [|apply list_lookup_middle; done].
    apply NoDup_app. split; [done|]. split; [|apply NoDup_singleton].
    intros x Hx ->%list_elem_of_singleton. done. }
  apply Forall_fmap. eapply Forall_impl; [exact Hrows|].
  intros row Hrow. simpl in *. unfold row_at. rewrite Hpos. simpl.
  by apply list_lookup_middle.
Qed.

(** Every row of the merged frame holds, under the provenance column, the
    name of an uploaded file that yielded a Table. *)
Theorem every_row_names_its_file (files : list UploadedFile) (mode : string)
    (final : DataFrame) :
  (run_batch files mode).1 = Some final →
  source_column ∈ columns final ∧
  Forall (λ row, ∃ file, file ∈ files ∧ is_Some (file_table mode file) ∧
            row_at (columns final) row source_column = Some (PStr (name file)))
    (data final).
Proof.
  rewrite run_batch_frame.
  destruct (omap (file_table mode) files) as [|t0 rest] eqn:Htables; [done|].
  assert (Forall (λ t, frame_ok t ∧ NoDup (columns t)) (t0 :: rest)) as Hok.
  { rewrite <-Htables. apply Forall_forall.
    intros t (file & _ & Ht)%list_elem_of_omap. by eapply file_table_ok. }
  destruct (pd_concat_spec (t0 :: rest)) as (final' & -> & _ & Hcols & Hdata);
    [done| | |].
  { eapply Forall_impl; [exact Hok|]. by intros t [? _]. }
  { eapply Forall_impl; [exact Hok|]. by intros t [_ ?]. }
  intros [= ->].
  assert (∀ t, t ∈ t0 :: rest →
            ∃ file, file ∈ files ∧ file_table mode file = Some t) as Hfile.
  { intros t Ht. rewrite <-Htables in Ht.
    apply list_elem_of_omap in Ht as (file & Hfile & Ht). eauto. }
  assert (source_column ∈ columns final) as Hsrc.
  { apply Hcols. exists t0. split; [left|].
    destruct (Hfile t0) as (file & _ & Ht0); [left|].
    by apply file_table_source in Ht0 as [? _]. }
  split; [done|]. rewrite Hdata. apply Forall_forall. intros row Hrow.
  apply elem_of_concat in Hrow as (block & Hrow & Hblock).
  apply list_elem_of_fmap in Hblock as (t & -> & Ht).
  apply list_elem_of_fmap in Hrow as (row_t & -> & Hrow_t).
  destruct (Hfile t Ht) as (file & Hin & Hft).
  exists file. split; [done|]. split; [by rewrite Hft|].
  destruct (file_table_source mode file t Hft) as [Hsrc_t Hrows_t].
  destruct (proj1 (Forall_forall _ _) Hok t Ht) as [[_ Hrect] _].
  pose proof (proj1 (Forall_forall _ _) Hrect row_t Hrow_t) as Hlen.
  pose proof (proj1 (Forall_forall _ _) Hrows_t row_t Hrow_t) as Hname.
  simpl in Hlen, Hname. unfold row_at in *.
  rewrite reindex_row_at by done. by rewrite decide_True by done.
Qed.

Lemma every_row_names_its_file_witness :
  ∃ final,
    (run_batch example_batch "raw").1 = Some final ∧
    source_column ∈ columns final ∧
    Forall (λ row, ∃ file, file ∈ example_batch ∧
              is_Some (file_table "raw" file) ∧
              row_at (columns final) row source_column = Some (PStr (name file)))
      (data final).
Proof.
  destruct (run_batch example_batch "raw").1 as [final|] eqn:Hrun;
    [|vm_compute in Hrun; discriminate Hrun].
  exists final. split; [reflexivity|].
  by apply (every_row_names_its_file example_batch "raw").
Defined.

(** ** The messages of a batch *)

Lemma process_table_data_run_try (ocr_data : OcrData) (mode : string) :
  process_table_data_run ocr_data mode =
    match process_table_data_try ocr_data mode with
    | Ok r => (r, [])
    | Raised e => (None, [StErrorTable e])
    end.
Proof. done. Qed.

Lemma recognize_file_shown (mode : string) (file : UploadedFile)
    (all_data : list DataFrame) (shown : list st_call) :
  (recognize_file mode (all_data, shown) file).2
    = shown ++ file_messages mode file.
Proof.
  unfold recognize_file, file_messages, process_single_image.
  destruct (content file) as [e|pre e|pre ocr_data]; [done..|].
  pose proof (process_table_data_frame ocr_data mode) as Hframe.
  unfold process_table_data in Hframe.
  rewrite process_table_data_run_try in *.
  destruct (process_table_data_try ocr_data mode) as [[df|]|e]; simpl in *;
    [|done..].
  destruct (Hframe df eq_refl) as ([Hlen _] & _).
  by rewrite set_column_index, Hlen.
Qed.

Lemma recognize_all_shown (mode : string) (files : list UploadedFile) :
  (recognize_all mode files).2 = concat (file_messages mode <$> files).
Proof.
  unfold recognize_all.
  assert (∀ st, (foldl (recognize_file mode) st files).2
                = st.2 ++ concat (file_messages mode <$> files)) as Hfold.
  { induction files as [|file files IH]; intros [all_data shown].
    - simpl. by rewrite app_nil_r.
    - cbn [foldl]. rewrite IH.
      destruct (recognize_file mode (all_data, shown) file) as [all_data' shown']
        eqn:Hstep.
      pose proof (recognize_file_shown mode file all_data shown) as Hshown.
      rewrite Hstep in Hshown. simpl in Hshown. subst shown'.
      rewrite fmap_cons. simpl. by rewrite <-app_assoc. }
  by rewrite Hfold.
Qed.

(** The page after a batch of at least one file shows, file after file in
    the order of the upload, what each file alone gives: the error of
    [Image.open]; or what the preprocessing reported followed by the error
    of the recognition or of the reconstruction, by the success line with
    the number of rows of the file's Table, or by nothing when no table was
    found. "No valid data" follows when no file yielded a Table. The
    concatenation of the Tables never adds a merge failure to them (the
    display and the export of the merged frame, lines 200-213, are not
    part of [run_batch]). *)
Theorem batch_messages_are_per_file (files : list UploadedFile) (mode : string) :
  files ≠ [] →
  (run_batch files mode).2 =
    concat (file_messages mode <$> files)
    ++ (if decide (omap (file_table mode) files = []) then [StErrorNoData] else []).
Proof.
  intros _.
  pose proof (recognize_all_tables mode files) as Hall.
  pose proof (recognize_all_shown mode files) as Hshown.
  unfold run_batch.
  destruct (recognize_all mode files) as [all_data shown]. simpl in Hall, Hshown.
  subst all_data shown.
  destruct (omap (file_table mode) files) as [|t0 rest] eqn:Htables; [done|].
  assert (Forall (λ t, frame_ok t ∧ NoDup (columns t)) (t0 :: rest)) as Hok.
  { rewrite <-Htables. apply Forall_forall.
    intros t (file & _ & Ht)%list_elem_of_omap. by eapply file_table_ok. }
  destruct (pd_concat_spec (t0 :: rest)) as (final & -> & _); [done| | |].
  { eapply Forall_impl; [exact Hok|]. by intros t [? _]. }
  { eapply Forall_impl; [exact Hok|]. by intros t [_ ?]. }
  rewrite decide_False by done. simpl. by rewrite app_nil_r.
Qed.

Lemma batch_messages_are_per_file_witness :
  (run_batch
     [ {| name := "a.png";
          content := Recognized (Some (ExternalError "OSError"))
                       (response_of example_cells) |};
       {| name := "b.png";
          content := Unrecognized None (ExternalError "TencentCloudSDKException") |} ]
     "raw").2
  = [ StErrorPreprocess (ExternalError "OSError"); StSuccess "a.png" 2;
      StErrorImage (ExternalError "TencentCloudSDKException") ].
Proof.
  rewrite batch_messages_are_per_file by discriminate.
  vm_compute. reflexivity.
Defined.

(** A file whose response carries no detections, or only detections
    without cells, adds no Table, and nothing is shown for it beyond what
    the preprocessing of its image reported: no success line and no error
    for the missing table. *)
Theorem file_without_table_is_silent (mode : string)
    (all_data : list DataFrame) (shown : list st_call) (file : UploadedFile)
    (pre : option exn) (ocr_data : OcrData) (dets : list TableDetection) :
  content file = Recognized pre ocr_data →
  TableDetections ocr_data = None ∨
    (TableDetections ocr_data = Some dets ∧ Forall no_cells dets) →
  recognize_file mode (all_data, shown) file
    = (all_data, shown ++ preprocess_shown pre).
Proof.
  intros Hcontent Hnone.
  assert (process_table_data_run ocr_data mode = (None, [])) as Hrun.
  { unfold process_table_data_run. rewrite process_table_data_try_collect.
    destruct Hnone as [-> | [-> Hdets]]; [done|]. simpl.
    rewrite <-(app_nil_r dets), collect_tables_skip by done. done. }
  unfold recognize_file, process_single_image.
  rewrite Hcontent, Hrun. by rewrite app_nil_r.
Qed.

Lemma file_without_table_is_silent_witness :
  recognize_file "enhanced" ([], [StSuccess "a.png" 2])
    {| name := "b.png";
       content :=
         Recognized None {| TableDetections := Some [ {| Cells := Some [] |} ] |} |}
  = ([], [StSuccess "a.png" 2] ++ preprocess_shown None).
Proof.
  eapply (file_without_table_is_silent "enhanced").
  - reflexivity.
  - right. split; [reflexivity|].
    apply Forall_cons_2; [by right|apply Forall_nil_2].
Defined.

(** * Further properties of preprocess_image and process_single_image *)

Section preprocess_more.
Context {Image : Type} `{Pillow Image}.

(** Outside the enhanced mode an RGB image whose sides do not exceed 2000
    comes back as it went in, and nothing is reported. *)
Theorem small_rgb_image_is_untouched (img : Image) (mode : string) :
  image_mode img = "RGB" →
  (Z.max (image_size img).1 (image_size img).2 ≤ 2000)%Z →
  mode ≠ "enhanced" →
  preprocess_image_run img mode = (img, []).
Proof.
  intros Hmode Hsize Hdefault. unfold preprocess_image_run, assign.
  rewrite (bool_decide_eq_false_2 (image_mode img ≠ "RGB")) by (by intros []).
  rewrite (bool_decide_eq_false_2 (mode = "enhanced")) by done.
  rewrite bool_decide_eq_false_2 by lia. done.
Qed.

(** In enhanced mode an image without a bounding box (a uniformly white
    one) is not cropped: it only receives the border. *)
Theorem white_image_is_only_bordered (img bordered : Image) :
  image_mode img = "RGB" → white_bbox img = Ok None →
  expand_border img = Ok bordered →
  (Z.max (image_size bordered).1 (image_size bordered).2 ≤ 2000)%Z →
  preprocess_image_run img "enhanced" = (bordered, []).
Proof.
  intros Hmode Hbbox Hexpand Hsize. unfold preprocess_image_run, assign.
  rewrite (bool_decide_eq_false_2 (image_mode img ≠ "RGB")) by (by intros []).
  rewrite (bool_decide_eq_true_2 ("enhanced" = "enhanced")) by done.
  rewrite Hbbox, res_bind_Ok, Hexpand.
  rewrite bool_decide_eq_false_2 by lia. done.
Qed.
End preprocess_more.

Lemma small_rgb_image_is_untouched_witness :
  preprocess_image_run (rgb_sheet 800 600) "default" = (rgb_sheet 800 600, []).
Proof.
  apply small_rgb_image_is_untouched.
  - reflexivity.
  - simpl. lia.
  - discriminate.
Defined.

Lemma white_image_is_only_bordered_witness :
  preprocess_image_run
    {| smode := "RGB"; swidth := 100; sheight := 100; blank := true;
       readable := true |} "enhanced"
  = ({| smode := "RGB"; swidth := 140; sheight := 140; blank := true;
        readable := true |}, []).
Proof.
  apply white_image_is_only_bordered.
  - reflexivity.
  - reflexivity.
  - reflexivity.
  - simpl. lia.
Defined.

Lemma preprocess_image_convert_fails_witness :
  preprocess_image_run
    {| smode := "L"; swidth := 3000; sheight := 10; blank := false;
       readable := false |} "enhanced"
  = ({| smode := "L"; swidth := 3000; sheight := 10; blank := false;
        readable := false |}, [StErrorPreprocess (ExternalError "OSError")]).
Proof.
  apply preprocess_image_convert_fails.
  - discriminate.
  - reflexivity.
Defined.

Section single_image_facts.
Context {Image : Type} `{Pillow Image} `{Gateway Image}.

(** A Table is returned only when the preprocessed image gave a payload of
    at least 100 characters and the service answered it: the Table is the
    one reconstructed from that answer. *)
Theorem table_comes_from_the_answer (img : Image) (mode : string) (df : DataFrame) :
  (process_single_image_steps img mode).1 = Some df →
  ∃ img_base64 ocr_data,
    encode_jpeg_base64
      (preprocess_image img
         (if bool_decide (mode = "enhanced") then "enhanced" else "default"))
      = Ok img_base64 ∧
    100 ≤ String.length img_base64 ∧
    recognize img_base64 = Ok ocr_data ∧
    process_table_data ocr_data mode = Some df.
Proof.
  unfold process_single_image_steps, preprocess_image, process_table_data.
  destruct (preprocess_image_run img
              (if bool_decide (mode = "enhanced") then "enhanced" else "default"))
    as [img' shown]. simpl.
  unfold recognition_steps, process_single_image.
  destruct (encode_jpeg_base64 img') as [img_base64|e]; [|done].
  rewrite res_bind_Ok.
  destruct (bool_decide (String.length img_base64 < 100)) eqn:Hlen; [done|].
  apply bool_decide_eq_false_1 in Hlen.
  destruct (recognize img_base64) as [ocr_data|e] eqn:Hanswer; [|done].
  destruct (process_table_data_run ocr_data mode) as [r msgs] eqn:Hrun.
  simpl. intros ->. exists img_base64, ocr_data.
  rewrite Hrun. split; [done|]. split; [lia|done].
Qed.



(** Any processing mode other than "enhanced" is handled like "raw", in
    the preprocessing as in the reconstruction. *)
Theorem single_image_other_modes_are_raw (img : Image) (mode : string) :
  mode ≠ "enhanced" →
  process_single_image_steps img mode = process_single_image_steps img "raw".
Proof.
  intros Hmode. unfold process_single_image_steps.
  rewrite (bool_decide_eq_false_2 (mode = "enhanced")) by done.
  rewrite (bool_decide_eq_false_2 ("raw" = "enhanced")) by done.
  destruct (preprocess_image_run img "default") as [img' shown].
  unfold process_single_image.
  destruct (recognition_steps img') as [ocr_data|e]; [|done].
  by rewrite process_table_data_run_other_mode.
Qed.
End single_image_facts.

Lemma table_comes_from_the_answer_witness :
  ∃ img_base64 ocr_data,
    encode_jpeg_base64
      (preprocess_image (rgb_sheet 20 20)
         (if bool_decide ("raw" = "enhanced") then "enhanced" else "default"))
      = Ok img_base64 ∧
    100 ≤ String.length img_base64 ∧
    recognize img_base64 = Ok ocr_data ∧
    process_table_data ocr_data "raw"
      = Some {| index := [0; 1]%Z; columns := [LInt 0; LInt 1; LInt 2];
                data := [ [PStr "Name"; PStr "Name"; PStr "Age"];
                          [PStr "Ann"; PStr "30"; PStr ""] ] |}.
Proof.
  apply (table_comes_from_the_answer (rgb_sheet 20 20) "raw").
  vm_compute. reflexivity.
Defined.

Lemma single_image_other_modes_are_raw_witness :
  process_single_image_steps (rgb_sheet 20 20) "default"
    = process_single_image_steps (rgb_sheet 20 20) "raw".
Proof. apply single_image_other_modes_are_raw. discriminate. Defined.
